(** * LuminaDiffusersNode: a shallow embedding of [lumina_diffusers_node.py]

    The node wraps a diffusers Lumina pipeline.  Its [generate] method seeds
    a generator, configures the shared pipeline object, installs a
    [custom_call] closure as the pipeline's [__call__] attribute, calls the
    pipeline, and converts the result into an (IMAGE, LATENT) pair; an
    [Exception] on the way is answered with a zero-filled placeholder
    pair, built by [torch.zeros].  The call
    syntax [self.pipe(...)] runs the [__call__] of the pipeline's class
    (Python looks special methods up on the type); the installed closure
    is state of the object, reached through the attribute.

    Python values are modelled as follows: [int] is [Z]; [float] is an
    IEEE-754 binary64 number ([spec_float] at precision 53, [emax] 1024);
    a tensor is a shape, a dtype and its row-major elements; keyword
    dictionaries are [gmap string value]; the node and its pipeline object
    live in an explicit [world] that every statement threads through an
    exception-and-state monad.  Library code that is not part of the file
    (diffusers, torch's generator, and the helper module [utils] with
    [ODE] and [get_2d_rotary_pos_embed_lumina]) is a record of externals.
    Console output ([print], [traceback.print_exc]) is not modelled. *)

From Stdlib Require Import ZArith List Bool Lia.
From Stdlib Require Import Floats.SpecFloat.
From stdpp Require Import gmap strings.

Local Open Scope Z_scope.

(** ** Exceptions and results *)

(** The classes that the modelled code raises itself, the ones a library
    call may raise, and the classes that derive from [BaseException] but
    not from [Exception]: the three standard ones and any other, such as
    [asyncio.CancelledError], by its name. *)
Inductive exn_class : Type :=
  | ValueError
  | ZeroDivisionError
  | OverflowError
  | RuntimeError
  | OtherException (name : string)
  | KeyboardInterrupt
  | SystemExit
  | GeneratorExit
  | OtherBaseException (name : string).

Record exn : Type := mkExn { exn_cls : exn_class; exn_msg : string }.

(** [isinstance(e, Exception)] *)
Definition is_Exception (e : exn) : bool :=
  match exn_cls e with
  | KeyboardInterrupt | SystemExit | GeneratorExit | OtherBaseException _ => false
  | _ => true
  end.

Inductive result (A : Type) : Type :=
  | Ok (a : A)
  | Raise (e : exn).
Arguments Ok {A} a.
Arguments Raise {A} e.

(** ** Python floats and the arithmetic of [model_fn] *)

Module PyFloat.

Definition prec : Z := 53.
Definition emax : Z := 1024.

(** [x < y] on two floats. *)
Definition ltb : spec_float -> spec_float -> bool := SFltb.

(** The literal [1.0]. *)
Definition one : spec_float := SFone prec emax.

(** An integer as an exact (unrounded) operand of a division. *)
Definition exact_int (z : Z) : spec_float :=
  match z with
  | Z0 => S754_zero false
  | Zpos p => S754_finite false p 0
  | Zneg p => S754_finite true p 0
  end.

(** [a / b] on two ints: the correctly rounded quotient;
    [ZeroDivisionError] for a zero divisor and [OverflowError] when the
    quotient is too large for a float. *)
Definition int_true_div (a b : Z) : result spec_float :=
  if b =? 0 then Raise (mkExn ZeroDivisionError "division by zero")
  else
    match SFdiv prec emax (exact_int a) (exact_int b) with
    | S754_infinity _ =>
        Raise (mkExn OverflowError "integer division result too large for a float")
    | q => Ok q
    end.

(** [math.sqrt]: [ValueError] below zero, the correctly rounded root
    otherwise ([-0.0] and NaN are returned unchanged). *)
Definition math_sqrt (x : spec_float) : result spec_float :=
  match x with
  | S754_finite true _ _ | S754_infinity true =>
      Raise (mkExn ValueError "math domain error")
  | _ => Ok (SFsqrt prec emax x)
  end.

(** A float of a narrower format read as a binary64 value (exact). *)
Definition widen (x : spec_float) : spec_float :=
  match x with
  | S754_finite s m e => binary_normalize prec emax (cond_Zopp s (Zpos m)) e s
  | _ => x
  end.

End PyFloat.

(** [a // b] on two ints. *)
Definition int_floor_div (a b : Z) : result Z :=
  if b =? 0 then Raise (mkExn ZeroDivisionError "integer division or modulo by zero")
  else Ok (a / b).

(** ** Tensors *)

Inductive dtype : Type := bfloat16 | float16 | float32 | float64.

Definition dtype_prec (d : dtype) : Z :=
  match d with bfloat16 => 8 | float16 => 11 | float32 => 24 | float64 => 53 end.

Definition dtype_emax (d : dtype) : Z :=
  match d with bfloat16 => 128 | float16 => 16 | float32 => 128 | float64 => 1024 end.

(** A tensor: its shape, its element type and its elements in row-major
    order, each one a float of the element type's format. *)
Record tensor : Type := mkTensor {
  shape : list Z;
  t_dtype : dtype;
  data : list spec_float
}.

Definition numel (s : list Z) : Z := fold_right Z.mul 1 s.

Module Torch.

(** The element [x] rounded into the format of [d]. *)
Definition cast (d : dtype) (x : spec_float) : spec_float :=
  match x with
  | S754_finite s m e =>
      binary_normalize (dtype_prec d) (dtype_emax d) (cond_Zopp s (Zpos m)) e s
  | _ => x
  end.

Definition of_int (d : dtype) (z : Z) : spec_float :=
  binary_normalize (dtype_prec d) (dtype_emax d) z 0 false.

(** The range of [int64_t], in which torch keeps sizes, strides and byte
    counts. *)
Definition int64_min : Z := - 2 ^ 63.
Definition int64_max : Z := 2 ^ 63 - 1.

Definition fits_int64 (n : Z) : bool := (int64_min <=? n) && (n <=? int64_max).

(** The bytes of one element. *)
Definition itemsize (d : dtype) : Z :=
  match d with bfloat16 => 2 | float16 => 2 | float32 => 4 | float64 => 8 end.

(** The product of two [uint64_t] as torch's overflow-checked
    multiplication computes it: the wrapped product, and whether it
    wrapped. *)
Definition mul_overflows_u64 (a b : Z) : Z * bool :=
  ((a * b) mod 2 ^ 64, 2 ^ 64 <=? a * b).

(** The bytes of the contiguous storage of a tensor of shape [s]: the
    sizes multiplied from left to right, then by the element size, every
    product checked; [None] when one of them overflows or the byte count
    does not fit [int64_t]. *)
Definition storage_nbytes (s : list Z) (d : dtype) : option Z :=
  let step (acc : Z * bool) (n : Z) :=
    let (p, o) := mul_overflows_u64 (fst acc) n in (p, snd acc || o) in
  let elements := fold_left step s (1, false) in
  let (bytes, o) := mul_overflows_u64 (fst elements) (itemsize d) in
  if snd elements || o || (int64_max <? bytes) then None else Some bytes.

(** The product of the sizes, a size 0 counted as 1. *)
Definition padded_numel (s : list Z) : Z :=
  fold_right (fun n p => Z.max n 1 * p) 1 s.

(** The strides of the contiguous layout: the stride of a dimension is the
    product of the sizes to its right, a size 0 counted as 1. *)
Fixpoint contiguous_strides (s : list Z) : list Z :=
  match s with
  | [] => []
  | _ :: r => padded_numel r :: contiguous_strides r
  end.

(** The request made of the allocator [alloc] for [nbytes] bytes; no
    request is made for an empty storage. *)
Definition alloc_cpu (alloc : Z -> bool) (nbytes : Z) : bool :=
  (nbytes =? 0) || alloc nbytes.

(** [torch.zeros(shape, dtype=d)] with the allocator [alloc].  The checks
    are made in this order: every size is unpacked into an [int64_t]; no
    size is negative; the byte count is computed; the storage is
    allocated; the strides are computed.  The messages are the fixed part
    of torch's. *)
Definition zeros (alloc : Z -> bool) (s : list Z) (d : dtype) : result tensor :=
  if negb (forallb fits_int64 s)
  then Raise (mkExn (OtherException "TypeError") "Overflow when unpacking long")
  else if negb (forallb (fun n => 0 <=? n) s)
  then Raise (mkExn RuntimeError "Trying to create tensor with negative dimension")
  else match storage_nbytes s d with
       | None => Raise (mkExn RuntimeError "Storage size calculation overflowed")
       | Some nbytes =>
           if negb (alloc_cpu alloc nbytes)
           then Raise (mkExn RuntimeError "DefaultCPUAllocator: can't allocate memory")
           else if negb (forallb fits_int64 (contiguous_strides s))
           then Raise (mkExn RuntimeError "Stride calculation overflowed")
           else Ok (mkTensor s d (replicate (Z.to_nat (numel s)) (S754_zero false)))
       end.

(** [t.item()]: the single element as a Python float. *)
Definition item (t : tensor) : result spec_float :=
  match data t with
  | [x] => Ok (PyFloat.widen x)
  | _ => Raise (mkExn RuntimeError
                  "a Tensor with several or no elements cannot be converted to Scalar")
  end.

(** [t.to(dtype=d)]; [t.float()] is [to float32]. *)
Definition to (d : dtype) (t : tensor) : tensor :=
  mkTensor (shape t) d (map (cast d) (data t)).

Definition is_nan (x : spec_float) : bool :=
  match x with S754_nan => true | _ => false end.

Definition pick_min (x acc : spec_float) : spec_float :=
  if is_nan acc then acc else if is_nan x then x
  else if SFltb x acc then x else acc.

Definition pick_max (x acc : spec_float) : spec_float :=
  if is_nan acc then acc else if is_nan x then x
  else if SFltb acc x then x else acc.

(** [t.min()] and [t.max()]: NaN if any element is NaN; an empty
    tensor has neither. *)
Definition min (t : tensor) : result spec_float :=
  match data t with
  | [] => Raise (mkExn RuntimeError "min(): Expected reduction dim to be specified for input.numel() == 0")
  | x :: l => Ok (fold_right pick_min x l)
  end.

Definition max (t : tensor) : result spec_float :=
  match data t with
  | [] => Raise (mkExn RuntimeError "max(): Expected reduction dim to be specified for input.numel() == 0")
  | x :: l => Ok (fold_right pick_max x l)
  end.

(** [t.clamp(lo, hi)] with integer bounds. *)
Definition clamp (lo hi : Z) (t : tensor) : tensor :=
  let l := of_int (t_dtype t) lo in
  let h := of_int (t_dtype t) hi in
  mkTensor (shape t) (t_dtype t)
    (map (fun x => if SFltb x l then l else if SFltb h x then h else x) (data t)).

(** [(t + a) / b] with integer [a] and [b], in the tensor's format. *)
Definition add_div (a b : Z) (t : tensor) : tensor :=
  let p := dtype_prec (t_dtype t) in
  let m := dtype_emax (t_dtype t) in
  mkTensor (shape t) (t_dtype t)
    (map (fun x => SFdiv p m (SFadd p m x (of_int (t_dtype t) a)) (of_int (t_dtype t) b))
         (data t)).

(** [t.permute(0, 2, 3, 1)]: a tensor (b, c, h, w) read as (b, h, w, c). *)
Definition permute_0231 (t : tensor) : result tensor :=
  match shape t with
  | [b; c; h; w] =>
      Ok (mkTensor [b; h; w; c] (t_dtype t)
            (n ← seqZ 0 b; y ← seqZ 0 h; x ← seqZ 0 w; k ← seqZ 0 c;
             [default S754_nan (data t !! Z.to_nat (((n * c + k) * h + y) * w + x))]))
  | _ => Raise (mkExn RuntimeError
                  "permute(sparse_coo): number of dimensions in the tensor input does not match the length of the desired ordering of dimensions")
  end.

End Torch.

(** ** Python values and the objects of the node *)

Definition device : Type := string.

(** [torch.Generator(device=d).manual_seed(s)]: a generator is the device
    and the seed it was seeded with. *)
Record generator : Type := mkGenerator {
  gen_device : device;
  gen_seed : Z
}.

Inductive value : Type :=
  | VNone
  | VBool (b : bool)
  | VInt (z : Z)
  | VFloat (f : spec_float)
  | VStr (s : string)
  | VTensor (t : tensor)
  | VGenerator (g : generator).

(** Modelled from the spec: the class [ODE] of the helper module [utils],
    which is not part of the source.  An integrator object is its three
    construction parameters [num_inference_steps], [solver] and [t_shift];
    whether constructing it raises, and what [sample] does, are externals. *)
Record ODE : Type := mkODE {
  ode_num_inference_steps : Z;
  ode_solver : string;
  ode_t_shift : Z
}.

(** [self.pipe.transformer.config] *)
Record transformer_config : Type := mkTransformerConfig {
  sample_size : Z;
  hidden_size : Z;
  num_attention_heads : Z
}.

(** [self.pipe.scheduler], with [config.shift]. *)
Record scheduler : Type := mkScheduler {
  sched_class : string;
  sched_shift : value
}.

(** The free variables of [custom_call] and of the [model_fn] inside it:
    [width], [height], [default_image_size], [scaling_watershed] and
    [ode].  ([self] is the one node of the [world].) *)
Record closure : Type := mkClosure {
  cl_width : Z;
  cl_height : Z;
  cl_default_image_size : Z;
  cl_scaling_watershed : spec_float;
  cl_ode : ODE
}.

(** What the attribute [__call__] of the pipeline object can hold: the
    method of the class bound to the object, or a [custom_call] closure. *)
Inductive callable : Type :=
  | BoundClassCall
  | CustomCall (c : closure).

(** The pipeline object.  [inst_call] is the entry [__call__] of the
    object's own [__dict__], absent until [generate] assigns it. *)
Record pipe_obj : Type := mkPipe {
  transformer_cfg : transformer_config;
  vae_scale_factor : Z;
  pipe_scheduler : scheduler;
  cross_attention_kwargs : option (gmap string value);
  inst_call : option callable
}.

(** The result of a pipeline call, with its attribute [images]. *)
Record output : Type := mkOutput { images : tensor }.

(** Calls that leave the modelled code, in the order they are made. *)
Inductive event : Type :=
  | EvRotary (head_dim grid_h grid_w : Z) (linear_factor ntk_factor : spec_float)
  | EvTransformer (x : value) (t : tensor) (model_kwargs : gmap string value)
  | EvPipeline (p : pipe_obj) (pipe_args : gmap string value).

(** The state a run can read and change: [self.pipe] of the node, the
    operating system's entropy source read by [os.urandom], and the log of
    outgoing calls. *)
Record world : Type := mkWorld {
  node_pipe : option pipe_obj;
  entropy : nat -> Byte.byte;
  entropy_pos : nat;
  trace : list event
}.

(** ** The monad of Python statements: state and exceptions *)

Definition M (A : Type) : Type := world -> result A * world.

Definition ret {A} (a : A) : M A := fun w => (Ok a, w).

Definition bind {A B} (m : M A) (k : A -> M B) : M B :=
  fun w =>
    match m w with
    | (Ok a, w') => k a w'
    | (Raise e, w') => (Raise e, w')
    end.

Definition raise {A} (e : exn) : M A := fun w => (Raise e, w).

(** A pure computation that may raise. *)
Definition lift {A} (r : result A) : M A := fun w => (r, w).

(** A call made for its effect: it returns [None] or raises. *)
Definition lift_err (o : option exn) : M unit :=
  match o with
  | None => ret tt
  | Some e => raise e
  end.

(** [try: body except Exception as e: handler(e)]: only instances of
    [Exception] are caught; the handler starts in the state the body left. *)
Definition try_except {A} (body : M A) (handler : exn -> M A) : M A :=
  fun w =>
    match body w with
    | (Ok a, w') => (Ok a, w')
    | (Raise e, w') => if is_Exception e then handler e w' else (Raise e, w')
    end.

Notation "'let*' x ':=' m 'in' k" := (bind m (fun x => k))
  (at level 10, x name, m at level 100, k at level 200).

Definition log (ev : event) : M unit :=
  fun w => (Ok tt, mkWorld (node_pipe w) (entropy w) (entropy_pos w) (trace w ++ [ev])).

Definition read_self_pipe : M (option pipe_obj) := fun w => (Ok (node_pipe w), w).

Definition assign_self_pipe (p : pipe_obj) : M unit :=
  fun w => (Ok tt, mkWorld (Some p) (entropy w) (entropy_pos w) (trace w)).

(** [self.pipe] where an attribute of it is needed. *)
Definition the_pipe : M pipe_obj :=
  let* o := read_self_pipe in
  match o with
  | Some p => ret p
  | None => raise (mkExn (OtherException "AttributeError")
                     "'NoneType' object has no attribute")
  end.

(** [self.pipe.<attribute> = ...]: an update of the shared object. *)
Definition update_pipe (f : pipe_obj -> pipe_obj) : M unit :=
  let* p := the_pipe in assign_self_pipe (f p).

Definition set_scheduler (s : scheduler) (p : pipe_obj) : pipe_obj :=
  mkPipe (transformer_cfg p) (vae_scale_factor p) s
         (cross_attention_kwargs p) (inst_call p).

Definition set_shift (v : value) (p : pipe_obj) : pipe_obj :=
  set_scheduler (mkScheduler (sched_class (pipe_scheduler p)) v) p.

Definition set_cross_attention_kwargs (k : option (gmap string value))
    (p : pipe_obj) : pipe_obj :=
  mkPipe (transformer_cfg p) (vae_scale_factor p) (pipe_scheduler p) k (inst_call p).

(** [self.pipe.__call__ = c] stores [c] in the object's [__dict__]. *)
Definition set_call (c : callable) (p : pipe_obj) : pipe_obj :=
  mkPipe (transformer_cfg p) (vae_scale_factor p) (pipe_scheduler p)
         (cross_attention_kwargs p) (Some c).

(** [self.pipe.__call__]: the entry of the object's [__dict__] if there is
    one, the bound method of the class otherwise. *)
Definition get_call (p : pipe_obj) : callable :=
  match inst_call p with
  | Some c => c
  | None => BoundClassCall
  end.

(** [os.urandom(n)] *)
Definition os_urandom (n : nat) : M (list Byte.byte) :=
  fun w =>
    (Ok (map (entropy w) (seq (entropy_pos w) n)),
     mkWorld (node_pipe w) (entropy w) (entropy_pos w + n)%nat (trace w)).

(** [int.from_bytes(bs, "big")] *)
Definition int_from_bytes_big (bs : list Byte.byte) : Z :=
  fold_left (fun acc b => acc * 256 + Z.of_N (Byte.to_N b)) bs 0.

(** ** Code outside the file *)

(** The libraries and the helper module the node calls.  Each field is
    the call named in its comment; a field of type [option exn] is a call
    made for its effect that may raise. *)
Record externals : Type := mkExternals {
  (** [mm.get_torch_device()] *)
  get_torch_device : result device;
  (** [torch.cuda.is_available() and torch.cuda.is_bf16_supported()] *)
  cuda_bf16 : bool;
  (** [os.path.join(os.path.dirname(__file__), model_path)] *)
  local_path : string -> string;
  (** [os.path.exists] *)
  path_exists : string -> bool;
  (** [LuminaText2ImgPipeline.from_pretrained(path, torch_dtype=dtype)] *)
  from_pretrained : string -> dtype -> result pipe_obj;
  (** [pipe.save_pretrained(path)] *)
  save_pretrained : pipe_obj -> string -> option exn;
  (** [FlowMatchEulerDiscreteScheduler.from_config(scheduler.config)] *)
  scheduler_from_config : scheduler -> result scheduler;
  (** [pipe.to(device)] *)
  pipe_to : pipe_obj -> device -> option exn;
  (** [torch.Generator(device=device).manual_seed(seed)] *)
  manual_seed_error : device -> Z -> option exn;
  (** [LuminaText2ImgPipeline.__call__(pipe, **pipe_args)], the method of
      the class *)
  pipeline_call : pipe_obj -> gmap string value -> result output;
  (** [ODE(num_inference_steps, solver, t_shift)] *)
  ODE_init_error : Z -> string -> Z -> option exn;
  (** [ode.sample(model_fn, **kwargs)] *)
  ODE_sample : ODE -> (value -> tensor -> gmap string value -> M value) ->
               gmap string value -> M output;
  (** [get_2d_rotary_pos_embed_lumina(head_dim, h, w, linear_factor=..,
      ntk_factor=..)] *)
  get_2d_rotary_pos_embed_lumina :
    Z -> Z -> Z -> spec_float -> spec_float -> result value;
  (** [pipe.transformer(x, t, **model_kwargs)] *)
  transformer_call : pipe_obj -> value -> tensor -> gmap string value -> result value;
  (** torch's allocator on the default device: whether a request for that
      many bytes is served *)
  allocate : Z -> bool
}.

(** The widget values of [INPUT_TYPES], the arguments of [generate]. *)
Record inputs : Type := mkInputs {
  model_path : string;
  prompt : string;
  negative_prompt : string;
  num_inference_steps : Z;
  guidance_scale : spec_float;
  width : Z;
  height : Z;
  seed : Z;
  batch_size : Z;
  scaling_watershed : spec_float;
  proportional_attn : bool;
  clean_caption : bool;
  max_sequence_length : Z;
  t_shift : Z;
  solver : string
}.

Section Node.

Variable ext : externals.

(** *** [model_fn] and [custom_call] *)

(** [math.sqrt(width * height / default_image_size**2)] *)
Definition scale_factor (c : closure) : result spec_float :=
  match PyFloat.int_true_div (cl_width c * cl_height c)
                             (cl_default_image_size c ^ 2) with
  | Ok q => PyFloat.math_sqrt q
  | Raise e => Raise e
  end.

(** [scale_factor if current_t < scaling_watershed else 1.0] *)
Definition linear_factor_of (c : closure) (s current_t : spec_float) : spec_float :=
  if PyFloat.ltb current_t (cl_scaling_watershed c) then s else PyFloat.one.

(** [1.0 if current_t < scaling_watershed else scale_factor] *)
Definition ntk_factor_of (c : closure) (s current_t : spec_float) : spec_float :=
  if PyFloat.ltb current_t (cl_scaling_watershed c) then PyFloat.one else s.

Definition model_fn (c : closure) (x : value) (t : tensor)
    (model_kwargs : gmap string value) : M value :=
  let* s := lift (scale_factor c) in
  let* current_t := lift (Torch.item t) in
  let linear_factor := linear_factor_of c s current_t in
  let ntk_factor := ntk_factor_of c s current_t in
  let* p := the_pipe in
  let* head_dim := lift (int_floor_div (hidden_size (transformer_cfg p))
                                       (num_attention_heads (transformer_cfg p))) in
  let* _ := log (EvRotary head_dim (cl_height c / 8) (cl_width c / 8)
                          linear_factor ntk_factor) in
  let* image_rotary_emb :=
    lift (get_2d_rotary_pos_embed_lumina ext head_dim (cl_height c / 8)
            (cl_width c / 8) linear_factor ntk_factor) in
  let model_kwargs := <["image_rotary_emb" := image_rotary_emb]> model_kwargs in
  let* p := the_pipe in
  let* _ := log (EvTransformer x t model_kwargs) in
  lift (transformer_call ext p x t model_kwargs).

Definition custom_call (c : closure) (kwargs : gmap string value) : M output :=
  ODE_sample ext (cl_ode c) (model_fn c) kwargs.

(** *** [load_model] *)

Definition load_model (path : string) : M unit :=
  try_except
    (let* dev := lift (get_torch_device ext) in
     let dtype := if cuda_bf16 ext then bfloat16 else float32 in
     let full_path := local_path ext path in
     let* _ :=
       if negb (path_exists ext full_path) then
         let* p := lift (from_pretrained ext "Alpha-VLLM/Lumina-Next-SFT-diffusers" dtype) in
         let* _ := assign_self_pipe p in
         let* p := the_pipe in
         lift_err (save_pretrained ext p full_path)
       else
         let* p := lift (from_pretrained ext full_path dtype) in
         assign_self_pipe p in
     let* p := the_pipe in
     let* s := lift (scheduler_from_config ext (pipe_scheduler p)) in
     let* _ := update_pipe (set_scheduler s) in
     let* p := the_pipe in
     lift_err (pipe_to ext p dev))
    (fun _ => ret tt).

(** *** [process_output] and [process_latents] *)

Definition process_output (imgs : tensor) : M tensor :=
  let* _ := lift (Torch.min imgs) in
  let* _ := lift (Torch.max imgs) in
  let imgs := Torch.to float32 imgs in
  let* lo := lift (Torch.min imgs) in
  let in_unit_range :=
    if SFleb (Torch.of_int float32 0) lo then
      let* hi := lift (Torch.max imgs) in
      ret (SFleb hi (Torch.of_int float32 1))
    else ret false in
  let* b := in_unit_range in
  let imgs :=
    if b then Torch.clamp 0 1 imgs
    else Torch.clamp 0 1 (Torch.add_div 1 2 imgs) in
  let* imgs := lift (Torch.permute_0231 imgs) in
  let* _ := lift (Torch.min imgs) in
  let* _ := lift (Torch.max imgs) in
  ret imgs.

Definition process_latents (imgs : tensor) (height width : Z)
    : M (gmap string tensor) :=
  let latents := imgs in
  let latents := Torch.to float32 latents in
  let* _ := lift (Torch.min latents) in
  let* _ := lift (Torch.max latents) in
  ret {["samples" := latents]}.

(** *** [generate] *)

(** Lines 67-72: load the pipeline if there is none. *)
Definition ensure_pipe (i : inputs) : M unit :=
  let* o := read_self_pipe in
  let* _ := match o with
            | None => load_model (model_path i)
            | Some _ => ret tt
            end in
  let* o := read_self_pipe in
  match o with
  | None => raise (mkExn ValueError "Failed to load the pipeline.")
  | Some _ => ret tt
  end.

(** Lines 77-79: the seed the generator is seeded with. *)
Definition resolve_seed (i : inputs) : M Z :=
  if seed i =? -1
  then let* bs := os_urandom 4 in ret (int_from_bytes_big bs)
  else ret (seed i).

(** Lines 97-110: the keyword arguments of the pipeline call. *)
Definition pipe_args_of (i : inputs) (g : generator) : gmap string value :=
  list_to_map
    [("prompt", VStr (prompt i));
     ("negative_prompt", VStr (negative_prompt i));
     ("height", VInt (height i));
     ("width", VInt (width i));
     ("num_inference_steps", VInt (num_inference_steps i));
     ("guidance_scale", VFloat (guidance_scale i));
     ("num_images_per_prompt", VInt (batch_size i));
     ("generator", VGenerator g);
     ("output_type", VStr "pt");
     ("clean_caption", VBool (clean_caption i));
     ("max_sequence_length", VInt (max_sequence_length i));
     ("scaling_watershed", VFloat (scaling_watershed i))].

(** Lines 74-110: seed, default image size, attention and scheduler
    configuration, and the arguments of the call.  Returns
    [default_image_size] and [pipe_args]. *)
Definition configure (i : inputs) : M (Z * gmap string value) :=
  let* dev := lift (get_torch_device ext) in
  let* seed := resolve_seed i in
  let* _ := lift_err (manual_seed_error ext dev seed) in
  let generator := mkGenerator dev seed in
  let* p := the_pipe in
  let default_image_size := sample_size (transformer_cfg p) * vae_scale_factor p in
  let* _ :=
    if proportional_attn i then
      update_pipe (set_cross_attention_kwargs
        (Some {["base_sequence_length" := VInt ((default_image_size / 16) ^ 2)]}))
    else update_pipe (set_cross_attention_kwargs None) in
  let time_shift_factor := 1 + t_shift i in
  let* _ := update_pipe (set_shift (VInt time_shift_factor)) in
  ret (default_image_size, pipe_args_of i generator).

(** The closure that line 118 creates. *)
Definition closure_of (i : inputs) (default_image_size : Z) (ode : ODE) : closure :=
  mkClosure (width i) (height i) default_image_size (scaling_watershed i) ode.

(** Lines 113-149: build the integrator, replace [__call__], call the
    pipeline, put the saved [__call__] back.  The call [self.pipe(...)]
    runs the [__call__] of the object's class: Python looks special
    methods up on the type, so the entry that line 143 stores in the
    object's [__dict__] is kept there but is not what the call runs. *)
Definition patched_pipeline_call (i : inputs) (default_image_size : Z)
    (pipe_args : gmap string value) : M output :=
  let* _ := lift_err (ODE_init_error ext (num_inference_steps i) (solver i) (t_shift i)) in
  let ode := mkODE (num_inference_steps i) (solver i) (t_shift i) in
  let* p := the_pipe in
  let original_call := get_call p in
  let* _ := update_pipe (set_call (CustomCall (closure_of i default_image_size ode))) in
  let* p := the_pipe in
  let* _ := log (EvPipeline p pipe_args) in
  let* out := lift (pipeline_call ext p pipe_args) in
  let* _ := update_pipe (set_call original_call) in
  ret out.

(** The body of the [try] block of [generate]. *)
Definition generate_body (i : inputs) : M (tensor * gmap string tensor) :=
  let* _ := ensure_pipe i in
  let* cfg := configure i in
  let* out := patched_pipeline_call i (fst cfg) (snd cfg) in
  let* processed_images := process_output (images out) in
  let* latents_dict := process_latents (images out) (height i) (width i) in
  ret (processed_images, latents_dict).

(** Lines 159-160: the pair returned by the [except] block. *)
Definition placeholder (i : inputs) : M (tensor * gmap string tensor) :=
  let* img := lift (Torch.zeros (allocate ext)
                      [batch_size i; height i; width i; 3] float32) in
  let* lat := lift (Torch.zeros (allocate ext)
                      [batch_size i; 4; height i / 8; width i / 8] float32) in
  ret (img, {["samples" := lat]}).

Definition generate (i : inputs) : M (tensor * gmap string tensor) :=
  try_except (generate_body i) (fun _ => placeholder i).

(** The state of the node after a series of generations. *)
Definition generations (l : list inputs) (w : world) : world :=
  fold_left (fun w i => snd (generate i w)) l w.

(** A call through the attribute, [self.pipe.__call__] applied to
    keyword arguments. *)
Definition call_attribute (kwargs : gmap string value) : M output :=
  let* p := the_pipe in
  match get_call p with
  | BoundClassCall =>
      let* _ := log (EvPipeline p kwargs) in
      lift (pipeline_call ext p kwargs)
  | CustomCall c => custom_call c kwargs
  end.

(** A series of vector-field evaluations, as an integrator makes them. *)
Fixpoint evaluations (c : closure) (l : list (value * tensor * gmap string value))
    : M (list value) :=
  match l with
  | [] => ret []
  | (x, t, kw) :: l' =>
      let* v := model_fn c x t kw in
      let* vs := evaluations c l' in
      ret (v :: vs)
  end.

End Node.

(** ** Derived forms used in the statements *)

(** The world after more outgoing calls. *)
Definition emit (evs : list event) (w : world) : world :=
  mkWorld (node_pipe w) (entropy w) (entropy_pos w) (trace w ++ evs).

(** The world with another pipeline object in [self.pipe]. *)
Definition with_pipe (p : pipe_obj) (w : world) : world :=
  mkWorld (Some p) (entropy w) (entropy_pos w) (trace w).

(** The call of the embedding generator that [model_fn] makes for scale
    factor [s] at time [ct]. *)
Definition rotary_event (c : closure) (hd : Z) (s ct : spec_float) : event :=
  EvRotary hd (cl_height c / 8) (cl_width c / 8)
           (linear_factor_of c s ct) (ntk_factor_of c s ct).

(** Line 82. *)
Definition default_image_size_of (p : pipe_obj) : Z :=
  sample_size (transformer_cfg p) * vae_scale_factor p.

(** Lines 85-88. *)
Definition cross_attention_of (i : inputs) (p : pipe_obj) : option (gmap string value) :=
  if proportional_attn i
  then Some {["base_sequence_length" := VInt ((default_image_size_of p / 16) ^ 2)]}
  else None.

(** The pipeline object after lines 85-92. *)
Definition configured (i : inputs) (p : pipe_obj) : pipe_obj :=
  set_shift (VInt (1 + t_shift i))
    (set_cross_attention_kwargs (cross_attention_of i p) p).

(** Line 113. *)
Definition ode_of (i : inputs) : ODE :=
  mkODE (num_inference_steps i) (solver i) (t_shift i).

(** The closure of [custom_call] for inputs [i] on pipeline [p]. *)
Definition custom_call_of (i : inputs) (p : pipe_obj) : closure :=
  closure_of i (default_image_size_of p) (ode_of i).

(** The pipeline object after line 143, and after line 149. *)
Definition patched (i : inputs) (p : pipe_obj) : pipe_obj :=
  set_call (CustomCall (custom_call_of i p)) (configured i p).

Definition restored (i : inputs) (p : pipe_obj) : pipe_obj :=
  set_call (get_call p) (patched i p).

(** The seed that line 79 gives to [manual_seed], and the world after
    lines 77-78. *)
Definition seed_used (i : inputs) (w : world) : Z :=
  if seed i =? -1
  then int_from_bytes_big (map (entropy w) (seq (entropy_pos w) 4))
  else seed i.

Definition after_seed (i : inputs) (w : world) : world :=
  if seed i =? -1
  then mkWorld (node_pipe w) (entropy w) (entropy_pos w + 4)%nat (trace w)
  else w.

(** Lines 151-154. *)
Definition postprocess (i : inputs) (out : output) : M (tensor * gmap string tensor) :=
  let* processed_images := process_output (images out) in
  let* latents_dict := process_latents (images out) (height i) (width i) in
  ret (processed_images, latents_dict).

(** The state in which the pipeline is called. *)
Definition at_call (pc : pipe_obj) (args : gmap string value) (ws : world) : world :=
  emit [EvPipeline pc args] (with_pipe pc ws).

(** Two pipeline objects of the same model: they may differ in what a
    generation overwrites (attention arguments, shift, [__call__]). *)
Definition same_model (p1 p2 : pipe_obj) : Prop :=
  transformer_cfg p1 = transformer_cfg p2 /\
  vae_scale_factor p1 = vae_scale_factor p2 /\
  sched_class (pipe_scheduler p1) = sched_class (pipe_scheduler p2).

(** The [__call__] attribute of the pipeline object is a [custom_call]
    closure built by one of the generations [js], for a pipeline of
    default image size [d]. *)
Definition stale_call (d : Z) (js : list inputs) (w : world) : Prop :=
  exists p j,
    node_pipe w = Some p /\ default_image_size_of p = d /\ In j js /\
    inst_call p = Some (CustomCall (closure_of j d (ode_of j))).

(** The pipeline call of generation [j], started in [w], raises. *)
Definition pipeline_call_raises (ext : externals) (j : inputs) (w : world) : Prop :=
  exists pc args e,
    trace (snd (generate ext j w)) = trace w ++ [EvPipeline pc args] /\
    pipeline_call ext pc args = Raise e.

(** No pipeline call raises in the series of generations [l] from [w]. *)
Fixpoint none_raises (ext : externals) (l : list inputs) (w : world) : Prop :=
  match l with
  | [] => True
  | j :: l' =>
      ~ pipeline_call_raises ext j w /\ none_raises ext l' (snd (generate ext j w))
  end.

Arguments scale_factor c : simpl never.

(** ** A small concrete installation, for running the model *)

Module Demo.

(** The configuration of Lumina-Next-SFT: 128 latent cells of 8 pixels,
    hidden size 2304 over 32 heads. *)
Definition lumina : pipe_obj :=
  mkPipe (mkTransformerConfig 128 2304 32) 8
         (mkScheduler "FlowMatchEulerDiscreteScheduler" (VFloat PyFloat.one))
         None None.

Definition f32 (z : Z) : spec_float := Torch.of_int float32 z.

(** A stand-in pipeline: a decoded batch (n, 3, height, width) whose
    pixels are all 0.0 or all 1.0, by the parity of the generator's seed. *)
Definition render (p : pipe_obj) (args : gmap string value) : result output :=
  match args !! "generator", args !! "num_images_per_prompt",
        args !! "height", args !! "width" with
  | Some (VGenerator g), Some (VInt n), Some (VInt h), Some (VInt w) =>
      Ok (mkOutput (mkTensor [n; 3; h; w] float32
            (replicate (Z.to_nat (n * 3 * h * w)) (f32 (gen_seed g mod 2)))))
  | _, _, _, _ => Raise (mkExn (OtherException "TypeError") "pipe_args")
  end.

(** A stand-in integrator: one evaluation of the vector field at the
    time given as [t], returned as the images. *)
Definition one_step (o : ODE)
    (f : value -> tensor -> gmap string value -> M value)
    (kwargs : gmap string value) : M output :=
  match kwargs !! "x", kwargs !! "t" with
  | Some (VTensor x), Some (VTensor t) =>
      let* v := f (VTensor x) t ∅ in
      match v with
      | VTensor y => ret (mkOutput y)
      | _ => raise (mkExn (OtherException "TypeError") "velocity")
      end
  | _, _ => raise (mkExn (OtherException "KeyError") "x")
  end.

Definition installation
    (call : pipe_obj -> gmap string value -> result output) : externals :=
  {| get_torch_device := Ok "cpu";
     cuda_bf16 := false;
     local_path := fun s => String.app "custom_nodes/" s;
     path_exists := fun _ => true;
     from_pretrained := fun _ _ => Ok lumina;
     save_pretrained := fun _ _ => None;
     scheduler_from_config := fun s => Ok s;
     pipe_to := fun _ _ => None;
     manual_seed_error := fun _ _ => None;
     pipeline_call := call;
     ODE_init_error := fun _ _ _ => None;
     ODE_sample := one_step;
     get_2d_rotary_pos_embed_lumina :=
       fun _ _ _ lf nf => Ok (VTensor (mkTensor [2] float64 [lf; nf]));
     transformer_call := fun _ x _ _ => Ok x;
     allocate := fun nbytes => nbytes <=? 2 ^ 33 |}.

Definition ext : externals := installation render.

(** A pipeline call that runs out of memory. *)
Definition out_of_memory (p : pipe_obj) (args : gmap string value) : result output :=
  Raise (mkExn RuntimeError "CUDA out of memory").

(** A pipeline call interrupted from the keyboard. *)
Definition interrupted (p : pipe_obj) (args : gmap string value) : result output :=
  Raise (mkExn KeyboardInterrupt "interrupted").

Definition zero_byte : Byte.byte := Byte.x00.

(** A node that has not loaded its pipeline. *)
Definition fresh : world := mkWorld None (fun _ => zero_byte) 0 [].

(** A node with its pipeline loaded. *)
Definition loaded : world := mkWorld (Some lumina) (fun _ => zero_byte) 0 [].

(** The same node with an entropy source whose bytes change after the
    first four. *)
Definition noisy : world :=
  mkWorld (Some lumina) (fun n => if (n <? 4)%nat then Byte.x00 else Byte.x01) 0 [].

(** The floats 0.5, 0.25, 0.75, 2.0 and 1/64. *)
Definition half : spec_float := binary_normalize PyFloat.prec PyFloat.emax 1 (-1) false.
Definition quarter : spec_float := binary_normalize PyFloat.prec PyFloat.emax 1 (-2) false.
Definition three_quarters : spec_float :=
  binary_normalize PyFloat.prec PyFloat.emax 3 (-2) false.
Definition two : spec_float := binary_normalize PyFloat.prec PyFloat.emax 2 0 false.
Definition sixty_fourth : spec_float :=
  binary_normalize PyFloat.prec PyFloat.emax 1 (-6) false.

(** The default widget values, at a given size, seed and watershed. *)
Definition request (w h s : Z) (watershed : spec_float) : inputs :=
  mkInputs "Lumina-Next-SFT-diffusers" "a lighthouse" "blurry" 30
           (binary_normalize PyFloat.prec PyFloat.emax 4 0 false)
           w h s 1 watershed true true 256 4 "midpoint".

Definition closure_at (w h : Z) (watershed : spec_float) : closure :=
  mkClosure w h 1024 watershed (mkODE 30 "midpoint" 4).

(** A time tensor holding one float32 value. *)
Definition at_time (x : spec_float) : tensor :=
  mkTensor [] float32 [Torch.cast float32 x].

End Demo.

(** ** The widget declarations of the node *)

(** One entry of the dictionary that [INPUT_TYPES] returns under
    ["required"]: the widget type with its options. *)
Inductive widget : Type :=
  | STRING (default : option string) (multiline : bool)
  | INT (default : Z) (min max step : option Z)
  | FLOAT (default min max : spec_float)
  | BOOLEAN (default : bool)
  | COMBO (options : list string) (default : string).

(** A decimal literal [n/d] of the source, as the float nearest to it. *)
Definition float_literal (n d : Z) : spec_float :=
  SFdiv PyFloat.prec PyFloat.emax (PyFloat.exact_int n) (PyFloat.exact_int d).

(** Lines 13-32. *)
Definition INPUT_TYPES : list (string * widget) :=
  [("model_path", STRING (Some "Lumina-Next-SFT-diffusers") false);
   ("prompt", STRING None true);
   ("negative_prompt", STRING None true);
   ("num_inference_steps", INT 30 (Some 1) (Some 200) None);
   ("guidance_scale",
      FLOAT (float_literal 4 1) (float_literal 1 10) (float_literal 20 1));
   ("width", INT 1024 (Some 512) (Some 2048) (Some 64));
   ("height", INT 1024 (Some 512) (Some 2048) (Some 64));
   ("seed", INT (-1) None None None);
   ("batch_size", INT 1 (Some 1) (Some 4) None);
   ("scaling_watershed",
      FLOAT (float_literal 1 1) (S754_zero false) (float_literal 1 1));
   ("proportional_attn", BOOLEAN true);
   ("clean_caption", BOOLEAN true);
   ("max_sequence_length", INT 256 (Some 64) (Some 512) None);
   ("t_shift", INT 4 (Some 1) (Some 20) None);
   ("solver", COMBO ["euler"; "midpoint"; "rk4"] "midpoint")].

(** The argument that [generate] receives under a parameter name. *)
Definition argument (i : inputs) (name : string) : option value :=
  if String.eqb name "model_path" then Some (VStr (model_path i))
  else if String.eqb name "prompt" then Some (VStr (prompt i))
  else if String.eqb name "negative_prompt" then Some (VStr (negative_prompt i))
  else if String.eqb name "num_inference_steps" then Some (VInt (num_inference_steps i))
  else if String.eqb name "guidance_scale" then Some (VFloat (guidance_scale i))
  else if String.eqb name "width" then Some (VInt (width i))
  else if String.eqb name "height" then Some (VInt (height i))
  else if String.eqb name "seed" then Some (VInt (seed i))
  else if String.eqb name "batch_size" then Some (VInt (batch_size i))
  else if String.eqb name "scaling_watershed" then Some (VFloat (scaling_watershed i))
  else if String.eqb name "proportional_attn" then Some (VBool (proportional_attn i))
  else if String.eqb name "clean_caption" then Some (VBool (clean_caption i))
  else if String.eqb name "max_sequence_length" then Some (VInt (max_sequence_length i))
  else if String.eqb name "t_shift" then Some (VInt (t_shift i))
  else if String.eqb name "solver" then Some (VStr (solver i))
  else None.

Definition at_least (lo : option Z) (z : Z) : bool :=
  match lo with Some m => m <=? z | None => true end.

Definition at_most (hi : option Z) (z : Z) : bool :=
  match hi with Some m => z <=? m | None => true end.

(** A value of the widget's type within its declared bounds (for a
    choice, one of its options). *)
Definition accepts (wd : widget) (v : value) : bool :=
  match wd, v with
  | STRING _ _, VStr _ => true
  | INT _ lo hi _, VInt z => at_least lo z && at_most hi z
  | FLOAT _ lo hi, VFloat f => SFleb lo f && SFleb f hi
  | BOOLEAN _, VBool _ => true
  | COMBO options _, VStr s => existsb (String.eqb s) options
  | _, _ => false
  end.

(** Arguments that every declared widget accepts. *)
Definition within_INPUT_TYPES (i : inputs) : bool :=
  forallb (fun nw => match argument i (fst nw) with
                     | Some v => accepts (snd nw) v
                     | None => false
                     end) INPUT_TYPES.

(** A tensor whose sizes are not negative and whose elements are as many
    as its shape says. *)
Definition well_formed (t : tensor) : Prop :=
  Forall (fun n => 0 <= n) (shape t) /\
  length (data t) = Z.to_nat (numel (shape t)).

(** A float that is a number between 0.0 and 1.0, or NaN. *)
Definition unit_or_nan (x : spec_float) : Prop :=
  x = S754_nan \/
  (SFleb (Torch.of_int float32 0) x = true /\ SFleb x (Torch.of_int float32 1) = true).

(** Where [load_model] takes the pipeline from, and in which dtype. *)
Definition load_source (ext : externals) (path : string) : string :=
  if path_exists ext (local_path ext path) then local_path ext path
  else "Alpha-VLLM/Lumina-Next-SFT-diffusers".

Definition load_dtype (ext : externals) : dtype :=
  if cuda_bf16 ext then bfloat16 else float32.

(** The pipeline object that [load_model] leaves in [self.pipe] once
    [from_pretrained] has returned [p]. *)
Definition loaded_pipe (ext : externals) (path : string) (p : pipe_obj) : pipe_obj :=
  let saved :=
    if path_exists ext (local_path ext path) then true
    else match save_pretrained ext p (local_path ext path) with
         | None => true
         | Some e => false
         end in
  if saved then
    match scheduler_from_config ext (pipe_scheduler p) with
    | Ok s => set_scheduler s p
    | Raise _ => p
    end
  else p.


(** The place of a float that is not NaN in the order of [<]: sign class,
    then exponent, then mantissa (both reversed below zero). *)
Definition order_key (x : spec_float) : Z * Z * Z :=
  match x with
  | S754_infinity true => (-2, 0, 0)
  | S754_finite true m e => (-1, - e, - Zpos m)
  | S754_zero _ => (0, 0, 0)
  | S754_nan => (0, 0, 0)
  | S754_finite false m e => (1, e, Zpos m)
  | S754_infinity false => (2, 0, 0)
  end.

Definition key_lt (a b : Z * Z * Z) : Prop :=
  let '(a1, a2, a3) := a in
  let '(b1, b2, b3) := b in
  a1 < b1 \/ (a1 = b1 /\ (a2 < b2 \/ (a2 = b2 /\ a3 < b3))).

(** [0.0 <= x <= 1.0] on a float32 element. *)
Definition in_unit (x : spec_float) : bool :=
  SFleb (Torch.of_int float32 0) x && SFleb x (Torch.of_int float32 1).

(** ** More installations and tensors, for running the model *)

Module Cases.

(** An installation where the scheduler cannot be rebuilt from its
    configuration. *)
Definition no_scheduler : externals :=
  {| get_torch_device := Ok "cpu";
     cuda_bf16 := false;
     local_path := fun s => String.app "custom_nodes/" s;
     path_exists := fun _ => true;
     from_pretrained := fun _ _ => Ok Demo.lumina;
     save_pretrained := fun _ _ => None;
     scheduler_from_config := fun _ => Raise (mkExn ValueError "unknown scheduler config");
     pipe_to := fun _ _ => None;
     manual_seed_error := fun _ _ => None;
     pipeline_call := Demo.render;
     ODE_init_error := fun _ _ _ => None;
     ODE_sample := Demo.one_step;
     get_2d_rotary_pos_embed_lumina :=
       fun _ _ _ lf nf => Ok (VTensor (mkTensor [2] float64 [lf; nf]));
     transformer_call := fun _ x _ _ => Ok x;
     allocate := fun nbytes => nbytes <=? 2 ^ 33 |}.

(** An installation with no local copy of the model and no network. *)
Definition offline : externals :=
  {| get_torch_device := Ok "cpu";
     cuda_bf16 := false;
     local_path := fun s => String.app "custom_nodes/" s;
     path_exists := fun _ => false;
     from_pretrained := fun _ _ => Raise (mkExn (OtherException "OSError") "no connection");
     save_pretrained := fun _ _ => None;
     scheduler_from_config := fun s => Ok s;
     pipe_to := fun _ _ => None;
     manual_seed_error := fun _ _ => None;
     pipeline_call := Demo.render;
     ODE_init_error := fun _ _ _ => None;
     ODE_sample := Demo.one_step;
     get_2d_rotary_pos_embed_lumina :=
       fun _ _ _ lf nf => Ok (VTensor (mkTensor [2] float64 [lf; nf]));
     transformer_call := fun _ x _ _ => Ok x;
     allocate := fun nbytes => nbytes <=? 2 ^ 33 |}.

(** A batch (1, 2, 1, 2) with elements in [0, 1], and one with elements
    in [-1, 1]. *)
Definition unit_batch : tensor :=
  mkTensor [1; 2; 1; 2] float32 [Demo.f32 0; Demo.f32 1; Demo.f32 1; Demo.f32 0].

Definition signed_batch : tensor :=
  mkTensor [1; 2; 1; 2] float32 [Demo.f32 (-1); Demo.f32 1; Demo.f32 0; Demo.f32 1].

(** The float32 number 0.5. *)
Definition half32 : spec_float := Torch.cast float32 Demo.half.

End Cases.

(** * Properties *)

(** ** Tactics and list facts *)

Ltac unmonad :=
  unfold update_pipe, the_pipe, read_self_pipe, assign_self_pipe, log,
         lift_err, lift, raise, bind, ret in *.

Lemma app_self_inv {A} (l evs : list A) : l = l ++ evs -> evs = [].
Proof.
  intros H. rewrite <- (app_nil_r l) in H at 1.
  apply app_inv_head in H. congruence.
Qed.


(** ** One evaluation of [model_fn] *)

Section ModelFn.

Variable ext : externals.
Variable c : closure.

Lemma model_fn_run x t kw w s ct p hd :
  scale_factor c = Ok s ->
  Torch.item t = Ok ct ->
  node_pipe w = Some p ->
  int_floor_div (hidden_size (transformer_cfg p))
                (num_attention_heads (transformer_cfg p)) = Ok hd ->
  model_fn ext c x t kw w =
    match get_2d_rotary_pos_embed_lumina ext hd (cl_height c / 8) (cl_width c / 8)
            (linear_factor_of c s ct) (ntk_factor_of c s ct) with
    | Ok emb =>
        (transformer_call ext p x t (<["image_rotary_emb" := emb]> kw),
         emit [rotary_event c hd s ct;
               EvTransformer x t (<["image_rotary_emb" := emb]> kw)] w)
    | Raise e => (Raise e, emit [rotary_event c hd s ct] w)
    end.
Proof.
  intros Hs Ht Hp Hd.
  unfold model_fn, bind, lift, the_pipe, read_self_pipe, bind, ret, log.
  rewrite Hs, Ht, Hp, Hd. simpl. rewrite Hp.
  destruct (get_2d_rotary_pos_embed_lumina _ _ _ _ _ _) as [emb|e]; simpl.
  - unfold emit, rotary_event; simpl. rewrite Hp, <- app_assoc. reflexivity.
  - unfold emit; simpl. now rewrite Hp.
Qed.

Lemma model_fn_cases x t kw w :
  (exists e, model_fn ext c x t kw w = (Raise e, w)) \/
  (exists s ct p hd,
     scale_factor c = Ok s /\ Torch.item t = Ok ct /\ node_pipe w = Some p /\
     int_floor_div (hidden_size (transformer_cfg p))
                   (num_attention_heads (transformer_cfg p)) = Ok hd).
Proof.
  destruct (scale_factor c) as [s|e] eqn:Hs;
    [|left; exists e; unfold model_fn, bind, lift; now rewrite Hs].
  destruct (Torch.item t) as [ct|e] eqn:Ht;
    [|left; exists e; unfold model_fn, bind, lift; now rewrite Hs, Ht].
  destruct (node_pipe w) as [p|] eqn:Hp.
  2:{ left; eexists.
      unfold model_fn, bind, lift, the_pipe, read_self_pipe, bind, ret, raise.
      rewrite Hs, Ht, Hp. reflexivity. }
  destruct (int_floor_div (hidden_size (transformer_cfg p))
              (num_attention_heads (transformer_cfg p))) as [hd|e] eqn:Hd.
  2:{ left; exists e.
      unfold model_fn, bind, lift, the_pipe, read_self_pipe, bind, ret, raise.
      rewrite Hs, Ht, Hp, Hd. reflexivity. }
  right. exists s, ct, p, hd. auto.
Qed.

Lemma model_fn_rotary_event x t kw w evs hd gh gw lf nf :
  trace (snd (model_fn ext c x t kw w)) = trace w ++ evs ->
  In (EvRotary hd gh gw lf nf) evs ->
  exists s ct,
    scale_factor c = Ok s /\ Torch.item t = Ok ct /\
    gh = cl_height c / 8 /\ gw = cl_width c / 8 /\
    lf = linear_factor_of c s ct /\ nf = ntk_factor_of c s ct.
Proof.
  intros Htr Hin.
  destruct (model_fn_cases x t kw w) as [[e He]|(s & ct & p & hd' & Hs & Ht & Hp & Hd)].
  - rewrite He in Htr. simpl in Htr. apply app_self_inv in Htr. subst evs. destruct Hin.
  - rewrite (model_fn_run x t kw w s ct p hd' Hs Ht Hp Hd) in Htr.
    exists s, ct.
    destruct (get_2d_rotary_pos_embed_lumina _ _ _ _ _ _); simpl in Htr;
      apply app_inv_head in Htr; subst evs; simpl in Hin;
      unfold rotary_event in Hin.
    + destruct Hin as [H|[H|[]]]; [|discriminate]. inversion H; subst. auto 10.
    + destruct Hin as [H|[]]. inversion H; subst. auto 10.
Qed.

End ModelFn.

Lemma scale_factor_eq c :
  scale_factor c =
    match PyFloat.int_true_div (cl_width c * cl_height c) (cl_default_image_size c ^ 2) with
    | Ok q => PyFloat.math_sqrt q
    | Raise e => Raise e
    end.
Proof. reflexivity. Qed.

(** ** Post-processing *)

Lemma process_output_pure t : exists r, forall w, process_output t w = (r, w).
Proof.
  unfold process_output. unmonad.
  destruct (Torch.min t); [|eauto].
  destruct (Torch.max t); [|eauto].
  destruct (Torch.min (Torch.to float32 t)); [|eauto].
  destruct (SFleb _ _).
  - destruct (Torch.max (Torch.to float32 t)); [|eauto].
    destruct (Torch.permute_0231 _) as [q|]; [|eauto].
    destruct (Torch.min q); [|eauto]. destruct (Torch.max q); eauto.
  - destruct (Torch.permute_0231 _) as [q|]; [|eauto].
    destruct (Torch.min q); [|eauto]. destruct (Torch.max q); eauto.
Qed.

Lemma permute_shape t q :
  Torch.permute_0231 t = Ok q ->
  exists b c h wd, shape t = [b; c; h; wd] /\ shape q = [b; h; wd; c].
Proof.
  unfold Torch.permute_0231.
  destruct (shape t) as [|b [|c [|h [|wd [|? ?]]]]]; try discriminate.
  intros [= <-]. exists b, c, h, wd. auto.
Qed.

Lemma process_output_shape t w img w' :
  process_output t w = (Ok img, w') ->
  exists b c h wd, shape t = [b; c; h; wd] /\ shape img = [b; h; wd; c].
Proof.
  unfold process_output. unmonad.
  destruct (Torch.min t); [|discriminate].
  destruct (Torch.max t); [|discriminate].
  destruct (Torch.min (Torch.to float32 t)); [|discriminate].
  destruct (SFleb _ _).
  - destruct (Torch.max (Torch.to float32 t)); [|discriminate].
    destruct (Torch.permute_0231 _) as [q|] eqn:Hq; [|discriminate].
    destruct (Torch.min q); [|discriminate]. destruct (Torch.max q); [|discriminate].
    intros [= <- <-]. apply permute_shape in Hq. destruct (SFleb _ _); exact Hq.
  - destruct (Torch.permute_0231 _) as [q|] eqn:Hq; [|discriminate].
    destruct (Torch.min q); [|discriminate]. destruct (Torch.max q); [|discriminate].
    intros [= <- <-]. apply permute_shape in Hq. exact Hq.
Qed.

Lemma process_latents_pure t h wd :
  exists r, forall w, process_latents t h wd w = (r, w).
Proof.
  unfold process_latents. unmonad.
  destruct (Torch.min _); [|eauto]. destruct (Torch.max _); eauto.
Qed.

Lemma process_latents_samples t h wd w m w' :
  process_latents t h wd w = (Ok m, w') ->
  m = {["samples" := Torch.to float32 t]}.
Proof.
  unfold process_latents. unmonad.
  destruct (Torch.min _); [|discriminate]. destruct (Torch.max _); [|discriminate].
  now intros [= <- <-].
Qed.

Lemma postprocess_pure i out : exists r, forall w, postprocess i out w = (r, w).
Proof.
  unfold postprocess, bind, ret.
  destruct (process_output_pure (images out)) as [r1 H1].
  destruct (process_latents_pure (images out) (height i) (width i)) as [r2 H2].
  destruct r1 as [img|e].
  - destruct r2 as [lat|e].
    + exists (Ok (img, lat)). intros w. now rewrite H1, H2.
    + exists (Raise e). intros w. now rewrite H1, H2.
  - exists (Raise e). intros w. now rewrite H1.
Qed.

Lemma postprocess_ok i out w img lat w' :
  postprocess i out w = (Ok (img, lat), w') ->
  exists b c h wd,
    lat = {["samples" := Torch.to float32 (images out)]} /\
    shape (images out) = [b; c; h; wd] /\ shape img = [b; h; wd; c].
Proof.
  unfold postprocess, bind, ret.
  destruct (process_output (images out) w) as [[img'|e] w1] eqn:H1; [|discriminate].
  destruct (process_latents (images out) (height i) (width i) w1)
    as [[lat'|e] w2] eqn:H2; [|discriminate].
  intros [= <- <- <-].
  apply process_output_shape in H1. apply process_latents_samples in H2.
  destruct H1 as (b & c & h & wd & Hs & Hi). exists b, c, h, wd. auto.
Qed.

Lemma padded_numel_pos s : 1 <= Torch.padded_numel s.
Proof. induction s as [|n r IH]; simpl; [lia|]. fold (Torch.padded_numel r). nia. Qed.

Lemma padded_numel_bound s n :
  In n s -> n <= Torch.padded_numel s.
Proof.
  induction s as [|m r IH]; simpl; [tauto|]. fold (Torch.padded_numel r).
  pose proof (padded_numel_pos r). intros [->|Hn]; [nia|].
  specialize (IH Hn). nia.
Qed.

Lemma itemsize_pos d : 1 <= Torch.itemsize d.
Proof. destruct d; simpl; lia. Qed.

(** The overflow-checked product of sizes that fit is the product. *)
Lemma storage_elements s : forall p o,
  0 <= p -> Forall (fun n => 0 <= n) s -> p * Torch.padded_numel s < 2 ^ 64 ->
  fold_left (fun (acc : Z * bool) (n : Z) =>
               let (q, o') := Torch.mul_overflows_u64 (fst acc) n in (q, snd acc || o'))
            s (p, o)
  = (p * numel s, o).
Proof.
  induction s as [|n r IH]; intros p o Hp Hs Hb; simpl.
  - f_equal. lia.
  - inversion Hs as [|? ? Hn Hr]; subst. fold (numel r).
    unfold Torch.padded_numel in Hb. cbn [fold_right] in Hb.
    fold (Torch.padded_numel r) in Hb.
    pose proof (padded_numel_pos r) as Hr1.
    assert (Hmax : n <= Z.max n 1 * Torch.padded_numel r) by nia.
    assert (Hpn : 0 <= p * n < 2 ^ 64) by nia.
    unfold Torch.mul_overflows_u64. cbn [fst snd].
    rewrite Z.mod_small by exact Hpn.
    replace (2 ^ 64 <=? p * n) with false by (symmetry; apply Z.leb_gt; lia).
    rewrite orb_false_r, IH; [f_equal; lia|lia|exact Hr|nia].
Qed.

Lemma storage_nbytes_ok s d :
  Forall (fun n => 0 <= n) s ->
  Torch.padded_numel s * Torch.itemsize d <= Torch.int64_max ->
  Torch.storage_nbytes s d = Some (numel s * Torch.itemsize d).
Proof.
  intros Hs Hb. unfold Torch.storage_nbytes, Torch.int64_max in *.
  pose proof (itemsize_pos d) as Hd. pose proof (padded_numel_pos s) as Hp.
  assert (Hle : 0 <= numel s <= Torch.padded_numel s).
  { clear Hb Hp. induction Hs as [|n r Hn Hr IH]; simpl; [lia|].
    fold (numel r). fold (Torch.padded_numel r). nia. }
  rewrite storage_elements; [|lia|exact Hs|nia].
  cbn [fst snd]. rewrite Z.mul_1_l. unfold Torch.mul_overflows_u64.
  assert (Hn : 0 <= numel s * Torch.itemsize d <= 2 ^ 63 - 1) by nia.
  rewrite Z.mod_small by lia.
  replace (2 ^ 64 <=? numel s * Torch.itemsize d) with false
    by (symmetry; apply Z.leb_gt; lia).
  replace (2 ^ 63 - 1 <? numel s * Torch.itemsize d) with false
    by (symmetry; apply Z.ltb_ge; lia).
  reflexivity.
Qed.

Lemma contiguous_strides_bound s :
  Forall (fun st => 1 <= st <= Torch.padded_numel s) (Torch.contiguous_strides s).
Proof.
  induction s as [|n r IH]; simpl; [constructor|]. fold (Torch.padded_numel r).
  pose proof (padded_numel_pos r) as Hr. constructor; [nia|].
  eapply Forall_impl; [exact IH|]. simpl. intros st Hst. nia.
Qed.

(** Where no size is negative and the byte count, a size 0 counted as 1,
    fits [int64_t], [torch.zeros] fails only if the allocator refuses. *)
Lemma zeros_fits alloc s d :
  Forall (fun n => 0 <= n) s ->
  Torch.padded_numel s * Torch.itemsize d <= Torch.int64_max ->
  Torch.zeros alloc s d
  = if Torch.alloc_cpu alloc (numel s * Torch.itemsize d)
    then Ok (mkTensor s d (replicate (Z.to_nat (numel s)) (S754_zero false)))
    else Raise (mkExn RuntimeError "DefaultCPUAllocator: can't allocate memory").
Proof.
  intros H Hb. unfold Torch.zeros.
  pose proof (itemsize_pos d) as Hd. pose proof (padded_numel_pos s) as Hp.
  assert (forallb Torch.fits_int64 s = true) as ->.
  { apply forallb_forall. intros n Hn. rewrite Forall_forall in H.
    pose proof (padded_numel_bound s n Hn).
    assert (0 <= n) by (apply H; now apply list_elem_of_In).
    unfold Torch.fits_int64, Torch.int64_min, Torch.int64_max in *.
    apply andb_true_iff. split; apply Z.leb_le; nia. }
  assert (forallb (fun n => 0 <=? n) s = true) as ->.
  { apply forallb_forall. intros n Hn. rewrite Forall_forall in H.
    apply Z.leb_le. apply H. now apply list_elem_of_In. }
  rewrite (storage_nbytes_ok s d H Hb).
  assert (forallb Torch.fits_int64 (Torch.contiguous_strides s) = true) as ->.
  { apply forallb_forall. intros st Hst.
    pose proof (contiguous_strides_bound s) as Hall. rewrite Forall_forall in Hall.
    specialize (Hall st (proj2 (list_elem_of_In _ _) Hst)).
    unfold Torch.fits_int64, Torch.int64_min, Torch.int64_max in *.
    apply andb_true_iff. split; apply Z.leb_le; nia. }
  simpl. now destruct (Torch.alloc_cpu _ _).
Qed.

(** [torch.zeros] builds the tensor when moreover the allocator serves
    the request. *)
Lemma zeros_ok alloc s d :
  Forall (fun n => 0 <= n) s ->
  Torch.padded_numel s * Torch.itemsize d <= Torch.int64_max ->
  Torch.alloc_cpu alloc (numel s * Torch.itemsize d) = true ->
  exists t, Torch.zeros alloc s d = Ok t /\ shape t = s /\ t_dtype t = d /\
            Forall (eq (S754_zero false)) (data t).
Proof.
  intros H Hb Ha. rewrite (zeros_fits alloc s d H Hb), Ha.
  eexists. split; [reflexivity|]. simpl. repeat split.
  apply Forall_forall. intros x Hx. apply elem_of_replicate in Hx. now destruct Hx.
Qed.

Lemma placeholder_pure ext i : exists r, forall w, placeholder ext i w = (r, w).
Proof.
  unfold placeholder. unmonad.
  destruct (Torch.zeros _ [_; _; _; 3] float32); [|eauto].
  destruct (Torch.zeros _ [_; 4; _; _] float32); eauto.
Qed.

(** The pair of lines 159-160 is built when the sizes are not negative,
    sixteen bytes for each pixel of the image, a size 0 counted as 1, fit
    [int64_t], and the allocator serves the two requests, of 12 bytes for
    each pixel and of 16 bytes for each cell of 8 by 8 pixels. *)
Lemma placeholder_ok ext i :
  0 <= batch_size i -> 0 <= height i -> 0 <= width i ->
  16 * (Z.max (batch_size i) 1 * Z.max (height i) 1 * Z.max (width i) 1)
    <= Torch.int64_max ->
  Torch.alloc_cpu (allocate ext) (12 * (batch_size i * height i * width i)) = true ->
  Torch.alloc_cpu (allocate ext)
    (16 * (batch_size i * (height i / 8) * (width i / 8))) = true ->
  exists img lat,
    (forall w, placeholder ext i w = (Ok (img, {["samples" := lat]}), w)) /\
    shape img = [batch_size i; height i; width i; 3] /\
    shape lat = [batch_size i; 4; height i / 8; width i / 8] /\
    t_dtype img = float32 /\ t_dtype lat = float32 /\
    Forall (eq (S754_zero false)) (data img) /\
    Forall (eq (S754_zero false)) (data lat).
Proof.
  intros Hb Hh Hw Hfit Ha1 Ha2.
  assert (Hh8 : 0 <= height i / 8 <= height i).
  { split; [apply Z.div_pos; lia|]. apply Z.div_le_upper_bound; lia. }
  assert (Hw8 : 0 <= width i / 8 <= width i).
  { split; [apply Z.div_pos; lia|]. apply Z.div_le_upper_bound; lia. }
  set (B := Z.max (batch_size i) 1) in *. set (H := Z.max (height i) 1) in *.
  set (W := Z.max (width i) 1) in *.
  assert (HB : 1 <= B) by lia. assert (HH : 1 <= H) by lia. assert (HW : 1 <= W) by lia.
  assert (HBH : 1 <= B * H) by nia.
  destruct (zeros_ok (allocate ext) [batch_size i; height i; width i; 3] float32)
    as (img & Himg & Hs1 & Hd1 & Hz1).
  { repeat constructor; lia. }
  { unfold Torch.padded_numel. cbn [fold_right Torch.itemsize].
    fold B H W. replace (Z.max 3 1) with 3 by reflexivity. nia. }
  { cbn [numel fold_right Torch.itemsize].
    replace (batch_size i * (height i * (width i * (3 * 1))) * 4)
      with (12 * (batch_size i * height i * width i)) by ring. exact Ha1. }
  destruct (zeros_ok (allocate ext) [batch_size i; 4; height i / 8; width i / 8] float32)
    as (lat & Hlat & Hs2 & Hd2 & Hz2).
  { repeat constructor; lia. }
  { unfold Torch.padded_numel. cbn [fold_right Torch.itemsize].
    fold B. replace (Z.max 4 1) with 4 by reflexivity.
    assert (H1 : Z.max (height i / 8) 1 <= H) by (subst H; lia).
    assert (H2 : Z.max (width i / 8) 1 <= W) by (subst W; lia).
    assert (H3 : 1 <= Z.max (height i / 8) 1) by lia.
    assert (H4 : 1 <= Z.max (width i / 8) 1) by lia.
    assert (H5 : Z.max (height i / 8) 1 * Z.max (width i / 8) 1 <= H * W) by nia.
    assert (H6 : B * (Z.max (height i / 8) 1 * Z.max (width i / 8) 1) <= B * (H * W))
      by nia.
    nia. }
  { cbn [numel fold_right Torch.itemsize].
    replace (batch_size i * (4 * (height i / 8 * (width i / 8 * 1))) * 4)
      with (16 * (batch_size i * (height i / 8) * (width i / 8))) by ring. exact Ha2. }
  exists img, lat. split; [|auto 10].
  intros w. unfold placeholder. unmonad. now rewrite Himg, Hlat.
Qed.

(** ** One generation *)

Lemma resolve_seed_eq i w :
  resolve_seed i w = (Ok (seed_used i w), after_seed i w).
Proof.
  unfold resolve_seed, seed_used, after_seed. destruct (seed i =? -1); reflexivity.
Qed.

Lemma after_seed_frame i w :
  node_pipe (after_seed i w) = node_pipe w /\ trace (after_seed i w) = trace w /\
  entropy (after_seed i w) = entropy w.
Proof. unfold after_seed. destruct (seed i =? -1); auto. Qed.

Lemma seed_used_frame i w w1 :
  entropy w1 = entropy w -> entropy_pos w1 = entropy_pos w ->
  seed_used i w1 = seed_used i w.
Proof. intros H1 H2. unfold seed_used. now rewrite H1, H2. Qed.

Lemma patched_get_call i p : get_call (patched i p) = CustomCall (custom_call_of i p).
Proof. reflexivity. Qed.

Lemma patched_same_model i p1 p2 : same_model p1 p2 -> patched i p1 = patched i p2.
Proof.
  intros (H1 & H2 & H3).
  unfold patched, custom_call_of, configured, cross_attention_of, default_image_size_of,
         set_call, set_shift, set_scheduler, set_cross_attention_kwargs; simpl.
  now rewrite H1, H2, H3.
Qed.

Section Generate.

Variable ext : externals.

Lemma ensure_pipe_loaded i w p :
  node_pipe w = Some p -> ensure_pipe ext i w = (Ok tt, w).
Proof.
  intros Hp. unfold ensure_pipe. unmonad. rewrite Hp. simpl. now rewrite Hp.
Qed.

(** The body of [generate] on a node whose pipeline is loaded, step by
    step. *)
Lemma generate_body_loaded i w p :
  node_pipe w = Some p ->
  generate_body ext i w =
    match get_torch_device ext with
    | Raise e => (Raise e, w)
    | Ok dev =>
        let ws := after_seed i w in
        let args := pipe_args_of i (mkGenerator dev (seed_used i w)) in
        match manual_seed_error ext dev (seed_used i w) with
        | Some e => (Raise e, ws)
        | None =>
            match ODE_init_error ext (num_inference_steps i) (solver i) (t_shift i) with
            | Some e => (Raise e, with_pipe (configured i p) ws)
            | None =>
                let wc := emit [EvPipeline (patched i p) args]
                               (with_pipe (patched i p) ws) in
                match pipeline_call ext (patched i p) args with
                | Raise e => (Raise e, wc)
                | Ok out => postprocess i out (with_pipe (restored i p) wc)
                end
            end
        end
    end.
Proof.
  intros Hp.
  unfold generate_body. unfold bind at 1. rewrite (ensure_pipe_loaded i w p Hp).
  unfold bind at 1. unfold configure. unfold bind at 1. unfold lift at 1.
  destruct (get_torch_device ext) as [dev|e]; [|reflexivity].
  unfold bind at 1. rewrite resolve_seed_eq.
  assert (Hps : node_pipe (after_seed i w) = Some p).
  { unfold after_seed. destruct (seed i =? -1); simpl; exact Hp. }
  generalize dependent (after_seed i w). intros ws Hps.
  generalize (seed_used i w). intros sd.
  unfold patched_pipeline_call. unmonad.
  destruct (manual_seed_error ext dev sd) as [e|]; [reflexivity|].
  rewrite Hps.
  destruct (ODE_init_error ext _ _ _) as [e|].
  - destruct (proportional_attn i) eqn:Hpa; simpl; rewrite Hps; simpl;
      unfold with_pipe, configured, cross_attention_of, default_image_size_of;
      rewrite Hpa; reflexivity.
  - destruct (proportional_attn i) eqn:Hpa; simpl; rewrite Hps; simpl;
      unfold restored, patched, custom_call_of, configured, cross_attention_of,
             default_image_size_of, emit, with_pipe, postprocess, bind;
      rewrite Hpa; simpl; destruct (pipeline_call ext _ _); reflexivity.
Qed.

Lemma load_model_frame path w :
  exists r w1, load_model ext path w = (r, w1) /\
    entropy w1 = entropy w /\ entropy_pos w1 = entropy_pos w /\ trace w1 = trace w.
Proof.
  unfold load_model, try_except. unmonad.
  destruct (get_torch_device ext) as [dev|e]; simpl.
  2:{ destruct (is_Exception e); eauto 10. }
  destruct (negb (path_exists ext (local_path ext path))).
  - destruct (from_pretrained ext _ _) as [p|e]; simpl.
    2:{ destruct (is_Exception e); eauto 10. }
    destruct (save_pretrained ext p _) as [e|]; simpl.
    { destruct (is_Exception e); eauto 10. }
    destruct (scheduler_from_config ext _) as [s|e]; simpl.
    2:{ destruct (is_Exception e); eauto 10. }
    destruct (pipe_to ext _ dev) as [e|]; simpl; [destruct (is_Exception e)|]; eauto 10.
  - destruct (from_pretrained ext _ _) as [p|e]; simpl.
    2:{ destruct (is_Exception e); eauto 10. }
    destruct (scheduler_from_config ext _) as [s|e]; simpl.
    2:{ destruct (is_Exception e); eauto 10. }
    destruct (pipe_to ext _ dev) as [e|]; simpl; [destruct (is_Exception e)|]; eauto 10.
Qed.

Lemma ensure_pipe_frame i w :
  exists r w1, ensure_pipe ext i w = (r, w1) /\
    entropy w1 = entropy w /\ entropy_pos w1 = entropy_pos w /\ trace w1 = trace w /\
    (r = Ok tt -> exists p, node_pipe w1 = Some p).
Proof.
  destruct (node_pipe w) as [p|] eqn:Hp.
  - exists (Ok tt), w. rewrite (ensure_pipe_loaded i w p Hp). eauto 10.
  - unfold ensure_pipe. unfold bind at 1. unfold read_self_pipe at 1. rewrite Hp.
    destruct (load_model_frame (model_path i) w) as (r & w1 & E & He & Hpos & Htr).
    unfold bind at 1. rewrite E. destruct r as [[]|e].
    + unmonad. destruct (node_pipe w1) as [p|] eqn:Hp1.
      * exists (Ok tt), w1. eauto 10.
      * eexists _, w1. repeat split; eauto. discriminate.
    + exists (Raise e), w1. repeat split; auto. discriminate.
Qed.

Lemma generate_body_ensure i w :
  generate_body ext i w =
    match ensure_pipe ext i w with
    | (Ok _, w1) => generate_body ext i w1
    | (Raise e, w1) => (Raise e, w1)
    end.
Proof.
  destruct (ensure_pipe_frame i w) as (r & w1 & E & _ & _ & _ & Hp).
  rewrite E. destruct r as [[]|e].
  - destruct (Hp eq_refl) as [p Hp1].
    unfold generate_body at 2. unfold bind at 1.
    rewrite (ensure_pipe_loaded i w1 p Hp1).
    unfold generate_body. unfold bind at 1. now rewrite E.
  - unfold generate_body. unfold bind at 1. now rewrite E.
Qed.

Lemma generate_body_any i w :
  exists w1,
    (exists e, generate_body ext i w = (Raise e, w1)) \/
    (exists p, node_pipe w1 = Some p /\ generate_body ext i w = generate_body ext i w1).
Proof.
  destruct (ensure_pipe_frame i w) as (r & w1 & E & _ & _ & _ & Hp).
  exists w1. rewrite generate_body_ensure, E. destruct r as [[]|e].
  - right. destruct (Hp eq_refl) as [p Hp1]. exists p. auto.
  - left. eauto.
Qed.

(** The handler of [generate] leaves the state of the body. *)
Lemma generate_world i w : snd (generate ext i w) = snd (generate_body ext i w).
Proof.
  unfold generate, try_except.
  destruct (generate_body ext i w) as [[a|e] w1]; [reflexivity|].
  destruct (is_Exception e); [|reflexivity].
  destruct (placeholder_pure ext i) as [r H]. now rewrite H.
Qed.

(** A generation whose log grew by a pipeline call: the object it was
    called on, its arguments, and how the body ends. *)
Lemma generate_pipeline_event i w pc args :
  trace (snd (generate ext i w)) = trace w ++ [EvPipeline pc args] ->
  exists p w1 dev,
    node_pipe w1 = Some p /\ (node_pipe w = Some p \/ node_pipe w = None) /\
    trace w1 = trace w /\
    pc = patched i p /\
    args = pipe_args_of i (mkGenerator dev (seed_used i w)) /\
    get_torch_device ext = Ok dev /\
    generate_body ext i w =
      match pipeline_call ext pc args with
      | Raise e => (Raise e, at_call pc args (after_seed i w1))
      | Ok out =>
          postprocess i out (with_pipe (restored i p) (at_call pc args (after_seed i w1)))
      end.
Proof.
  rewrite generate_world, generate_body_ensure.
  destruct (ensure_pipe_frame i w) as (r & w1 & E & He & Hpos & Htr & Hp).
  rewrite E. destruct r as [[]|e].
  2:{ simpl. rewrite Htr. intros H. apply app_self_inv in H. discriminate. }
  destruct (Hp eq_refl) as [p Hp1].
  assert (Hw : node_pipe w = Some p \/ node_pipe w = None).
  { destruct (node_pipe w) as [p0|] eqn:Hp0; [left|now right].
    rewrite (ensure_pipe_loaded i w p0 Hp0) in E. congruence. }
  rewrite (generate_body_loaded i w1 p Hp1).
  rewrite (seed_used_frame i w w1 He Hpos).
  destruct (after_seed_frame i w1) as (Hsp & Hst & _).
  destruct (get_torch_device ext) as [dev|e].
  2:{ simpl. rewrite Htr. intros H. apply app_self_inv in H. discriminate. }
  cbv zeta.
  destruct (manual_seed_error ext dev _) as [e|].
  { simpl. rewrite Hst, Htr. intros H. apply app_self_inv in H. discriminate. }
  destruct (ODE_init_error ext _ _ _) as [e|].
  { simpl. rewrite Hst, Htr. intros H. apply app_self_inv in H. discriminate. }
  intros H.
  assert (Hev : pc = patched i p /\
                args = pipe_args_of i (mkGenerator dev (seed_used i w))).
  { destruct (pipeline_call ext (patched i p) _) as [out|e].
    - destruct (postprocess_pure i out) as [r Hr]. rewrite Hr in H. simpl in H.
      rewrite Hst, Htr in H. apply app_inv_head in H. now inversion H.
    - simpl in H. rewrite Hst, Htr in H. apply app_inv_head in H. now inversion H. }
  destruct Hev as [-> ->].
  exists p, w1, dev. repeat split; auto.
Qed.

(** A generation adds to the log at most the one pipeline call: it never
    runs [custom_call], hence never [model_fn]. *)
Lemma generate_trace_shape i w :
  trace (snd (generate ext i w)) = trace w \/
  exists pc args, trace (snd (generate ext i w)) = trace w ++ [EvPipeline pc args].
Proof.
  rewrite generate_world, generate_body_ensure.
  destruct (ensure_pipe_frame i w) as (r & w1 & E & _ & _ & Htr & Hp).
  rewrite E. destruct r as [[]|e]; [|left; exact Htr].
  destruct (Hp eq_refl) as [p Hp1].
  rewrite (generate_body_loaded i w1 p Hp1).
  destruct (after_seed_frame i w1) as (_ & Hst & _).
  destruct (get_torch_device ext) as [dev|e]; [|left; exact Htr].
  cbv zeta.
  destruct (manual_seed_error ext dev _) as [e|]; [left; simpl; congruence|].
  destruct (ODE_init_error ext _ _ _) as [e|]; [left; simpl; congruence|].
  right. do 2 eexists.
  destruct (pipeline_call ext _ _) as [out|e].
  - destruct (postprocess_pure i out) as [r Hr]. rewrite Hr. simpl.
    rewrite Hst, Htr. reflexivity.
  - simpl. rewrite Hst, Htr. reflexivity.
Qed.

(** Line 149: after a pipeline call that returns, the attribute is the
    one saved at line 116. *)
Lemma restore_after_return i w pc args out p0 :
  trace (snd (generate ext i w)) = trace w ++ [EvPipeline pc args] ->
  pipeline_call ext pc args = Ok out -> node_pipe w = Some p0 ->
  exists p', node_pipe (snd (generate ext i w)) = Some p' /\ get_call p' = get_call p0.
Proof.
  intros Hgen Hout Hp0.
  destruct (generate_pipeline_event i w pc args Hgen)
    as (p & w1 & dev & Hp1 & Hw & _ & -> & -> & _ & Hbody).
  rewrite generate_world, Hbody, Hout.
  destruct (postprocess_pure i out) as [r Hr]. rewrite Hr. simpl.
  exists (restored i p). split; [reflexivity|].
  destruct Hw as [Hw|Hw]; [|congruence].
  assert (p0 = p) by congruence. subst. reflexivity.
Qed.

(** ** Series of generations *)

Lemma generate_keeps_stale d js i w :
  stale_call d js w -> stale_call d (js ++ [i]) (snd (generate ext i w)).
Proof.
  intros (p & j & Hp & Hd & Hj & Hc).
  assert (Hold : forall w0 p0,
            node_pipe w0 = Some p0 -> default_image_size_of p0 = d ->
            inst_call p0 = inst_call p -> stale_call d (js ++ [i]) w0).
  { intros w0 p0 H0 H1 H2. exists p0, j. repeat split; auto.
    - apply in_or_app. now left.
    - congruence. }
  rewrite generate_world, (generate_body_loaded i w p Hp).
  destruct (after_seed_frame i w) as (Hsp & _ & _).
  destruct (get_torch_device ext) as [dev|e]; [|now apply (Hold w p)].
  cbv zeta.
  destruct (manual_seed_error ext dev _) as [e|].
  { apply (Hold _ p); auto. simpl. congruence. }
  destruct (ODE_init_error ext _ _ _) as [e|].
  { apply (Hold _ (configured i p)); auto. }
  destruct (pipeline_call ext _ _) as [out|e].
  - destruct (postprocess_pure i out) as [r Hr]. rewrite Hr.
    apply (Hold _ (restored i p)); auto.
    unfold restored, get_call. simpl. now rewrite Hc.
  - exists (patched i p), i. simpl. repeat split; auto.
    + apply in_or_app. right. now left.
    + unfold custom_call_of. now rewrite Hd.
Qed.

Lemma generations_keep_stale d l : forall js w,
  stale_call d js w -> stale_call d (js ++ l) (generations ext l w).
Proof.
  induction l as [|i l IH]; intros js w H.
  - rewrite app_nil_r. exact H.
  - simpl. replace (js ++ i :: l) with ((js ++ [i]) ++ l)
      by (rewrite <- app_assoc; reflexivity).
    apply IH. now apply generate_keeps_stale.
Qed.

Lemma generate_keeps_call j w p c :
  node_pipe w = Some p -> inst_call p = Some c ->
  ~ pipeline_call_raises ext j w ->
  exists p', node_pipe (snd (generate ext j w)) = Some p' /\ inst_call p' = Some c.
Proof.
  intros Hp Hc Hcalm.
  destruct (generate_trace_shape j w) as [Hsame|(pc & args & Hev)].
  - revert Hsame. rewrite generate_world, (generate_body_loaded j w p Hp).
    destruct (after_seed_frame j w) as (Hsp & Hst & _).
    destruct (get_torch_device ext) as [dev|e]; [|eauto].
    cbv zeta.
    destruct (manual_seed_error ext dev _) as [e|].
    { intros _. exists p. simpl. split; congruence. }
    destruct (ODE_init_error ext _ _ _) as [e|].
    { intros _. exists (configured j p). auto. }
    destruct (pipeline_call ext _ _) as [out|e].
    + destruct (postprocess_pure j out) as [r Hr]. rewrite Hr. simpl.
      rewrite Hst. intros H. symmetry in H. apply app_self_inv in H. discriminate.
    + simpl. rewrite Hst. intros H. symmetry in H. apply app_self_inv in H. discriminate.
  - destruct (pipeline_call ext pc args) as [out|e] eqn:Hout.
    + destruct (restore_after_return j w pc args out p Hev Hout Hp) as (p' & H1 & H2).
      exists p'. split; [exact H1|].
      destruct (generate_pipeline_event j w pc args Hev)
        as (p0 & w1 & dev & _ & Hw & _ & _ & _ & _ & Hbody).
      rewrite generate_world, Hbody, Hout in H1.
      destruct (postprocess_pure j out) as [r Hr]. rewrite Hr in H1. simpl in H1.
      injection H1 as <-. simpl.
      destruct Hw as [Hw|Hw]; [|congruence].
      assert (p0 = p) by congruence. subst. unfold get_call. now rewrite Hc.
    + exfalso. apply Hcalm. exists pc, args, e. auto.
Qed.

Lemma generations_keep_call c l : forall w p,
  node_pipe w = Some p -> inst_call p = Some c -> none_raises ext l w ->
  exists p', node_pipe (generations ext l w) = Some p' /\ inst_call p' = Some c.
Proof.
  induction l as [|j l IH]; intros w p Hp Hc Hcalm.
  - exists p. auto.
  - destruct Hcalm as [H1 H2].
    destruct (generate_keeps_call j w p c Hp Hc H1) as (p1 & Hp1 & Hc1).
    simpl. exact (IH _ p1 Hp1 Hc1 H2).
Qed.

End Generate.

(** ** The model at work *)

Example int_true_div_is_correctly_rounded :
  PyFloat.int_true_div 1 3 = Ok (S754_finite false 6004799503160661 (-54)).
Proof. vm_compute. reflexivity. Qed.

Example scale_factor_2048 :
  scale_factor (Demo.closure_at 2048 2048 Demo.half) = Ok Demo.two.
Proof. vm_compute. reflexivity. Qed.

Example scale_factor_native :
  scale_factor (Demo.closure_at 1024 1024 Demo.half) = Ok PyFloat.one.
Proof. vm_compute. reflexivity. Qed.

Example scale_factor_no_reference_size :
  scale_factor (mkClosure 1024 1024 0 Demo.half (mkODE 30 "midpoint" 4))
  = Raise (mkExn ZeroDivisionError "division by zero").
Proof. vm_compute. reflexivity. Qed.

Example permute_small :
  Torch.permute_0231
    (mkTensor [1; 2; 1; 2] float32 [Demo.f32 1; Demo.f32 2; Demo.f32 3; Demo.f32 4])
  = Ok (mkTensor [1; 1; 2; 2] float32 [Demo.f32 1; Demo.f32 3; Demo.f32 2; Demo.f32 4]).
Proof. vm_compute. reflexivity. Qed.

Example fresh_node_loads_then_generates :
  match generate Demo.ext (Demo.request 16 16 7 Demo.half) Demo.fresh with
  | (Ok (img, _), w') =>
      shape img = [1; 16; 16; 3] /\
      (get_call <$> node_pipe w') = Some BoundClassCall
  | _ => False
  end.
Proof. vm_compute. split; reflexivity. Qed.

(** Called through the attribute, the installed closure does run the
    integrator on [model_fn]. *)
Example attribute_call_runs_the_integrator :
  let i := Demo.request 16 16 7 Demo.half in
  let w := with_pipe (patched i Demo.lumina) Demo.loaded in
  let x := mkTensor [1] float32 [Demo.f32 1] in
  let kwargs : gmap string value :=
    <["x" := VTensor x]> (<["t" := VTensor (Demo.at_time Demo.half)]> ∅) in
  fst (call_attribute Demo.ext kwargs w) = Ok (mkOutput x) /\
  head (trace (snd (call_attribute Demo.ext kwargs w)))
  = Some (EvRotary 72 2 2 PyFloat.one Demo.sixty_fourth).
Proof. vm_compute. split; reflexivity. Qed.

(** ** The watershed *)



(** At the native size 1024x1024 the resolution-scale factor is 1.0 and
    the call of the embedding generator carries 1.0 in both places: both
    members of the pair equal the resolution-scale factor, not exactly one
    of them. *)
Lemma native_size_both_factors_equal_scale :
  let c := Demo.closure_at 1024 1024 Demo.half in
  let s := PyFloat.one in
  let lf := PyFloat.one in
  let nf := PyFloat.one in
  scale_factor c = Ok s /\
  head (trace (snd (model_fn Demo.ext c VNone (Demo.at_time Demo.half) ∅ Demo.loaded)))
  = Some (EvRotary 72 128 128 lf nf) /\
  ~ ((lf = s /\ nf <> s) \/ (nf = s /\ lf <> s)).
Proof.
  cbv zeta. split; [vm_compute; reflexivity|]. split; [vm_compute; reflexivity|].
  intros [[_ H]|[_ H]]; now apply H.
Qed.

(** C2 (amended). In every evaluation that reaches the embedding
    generator, one member of the pair ([linear_factor], [ntk_factor]) is
    the resolution-scale factor and the other is 1.0; exactly one of them
    equals the resolution-scale factor whenever that factor is not 1.0;
    and between a time below the watershed and a time not below it the
    two values trade places. *)
Theorem factor_pair_invariant ext c x1 t1 kw1 w1 evs1 hd1 gh1 gw1 lf1 nf1
    x2 t2 kw2 w2 evs2 hd2 gh2 gw2 lf2 nf2 ct1 ct2 :
  trace (snd (model_fn ext c x1 t1 kw1 w1)) = trace w1 ++ evs1 ->
  In (EvRotary hd1 gh1 gw1 lf1 nf1) evs1 ->
  trace (snd (model_fn ext c x2 t2 kw2 w2)) = trace w2 ++ evs2 ->
  In (EvRotary hd2 gh2 gw2 lf2 nf2) evs2 ->
  Torch.item t1 = Ok ct1 -> Torch.item t2 = Ok ct2 ->
  exists s,
    scale_factor c = Ok s /\
    ((lf1 = s /\ nf1 = PyFloat.one) \/ (lf1 = PyFloat.one /\ nf1 = s)) /\
    (s <> PyFloat.one -> (lf1 = s /\ nf1 <> s) \/ (nf1 = s /\ lf1 <> s)) /\
    (PyFloat.ltb ct1 (cl_scaling_watershed c) = true ->
     PyFloat.ltb ct2 (cl_scaling_watershed c) = false ->
     lf1 = s /\ nf1 = PyFloat.one /\ lf2 = nf1 /\ nf2 = lf1).
Proof.
  intros Htr1 Hin1 Htr2 Hin2 Hct1 Hct2.
  destruct (model_fn_rotary_event ext c x1 t1 kw1 w1 evs1 _ _ _ _ _ Htr1 Hin1)
    as (s & ct1' & Hs & Ht1 & _ & _ & -> & ->).
  destruct (model_fn_rotary_event ext c x2 t2 kw2 w2 evs2 _ _ _ _ _ Htr2 Hin2)
    as (s' & ct2' & Hs' & Ht2 & _ & _ & -> & ->).
  assert (s' = s) by congruence. assert (ct1' = ct1) by congruence.
  assert (ct2' = ct2) by congruence. subst.
  exists s. unfold linear_factor_of, ntk_factor_of. split; [exact Hs|].
  split; [|split].
  - destruct (PyFloat.ltb ct1 _); auto.
  - intros Hne. destruct (PyFloat.ltb ct1 _); [left|right]; split; congruence.
  - intros -> ->. auto.
Qed.

Lemma factor_pair_invariant_witness :
  let c := Demo.closure_at 2048 2048 Demo.half in
  exists s,
    scale_factor c = Ok s /\
    ((Demo.two = s /\ PyFloat.one = PyFloat.one) \/
     (Demo.two = PyFloat.one /\ PyFloat.one = s)) /\
    (s <> PyFloat.one ->
     (Demo.two = s /\ PyFloat.one <> s) \/ (PyFloat.one = s /\ Demo.two <> s)) /\
    (PyFloat.ltb Demo.quarter (cl_scaling_watershed c) = true ->
     PyFloat.ltb Demo.three_quarters (cl_scaling_watershed c) = false ->
     Demo.two = s /\ PyFloat.one = PyFloat.one /\
     PyFloat.one = PyFloat.one /\ Demo.two = Demo.two).
Proof.
  intros c.
  refine (factor_pair_invariant Demo.ext c
            VNone (Demo.at_time Demo.quarter) ∅ Demo.loaded
            (trace (snd (model_fn Demo.ext c VNone (Demo.at_time Demo.quarter) ∅
                           Demo.loaded)))
            72 256 256 Demo.two PyFloat.one
            VNone (Demo.at_time Demo.three_quarters) ∅ Demo.loaded
            (trace (snd (model_fn Demo.ext c VNone (Demo.at_time Demo.three_quarters) ∅
                           Demo.loaded)))
            72 256 256 PyFloat.one Demo.two Demo.quarter Demo.three_quarters
            _ _ _ _ _ _).
  - reflexivity.
  - vm_compute. left. reflexivity.
  - reflexivity.
  - vm_compute. left. reflexivity.
  - vm_compute. reflexivity.
  - vm_compute. reflexivity.
Defined.

(** ** The resolution-scale factor *)

(** C3. The closure that a generation installs computes its
    resolution-scale factor as the square root of
    [width * height / default_image_size ** 2], where [default_image_size]
    is the transformer's [sample_size] times the pipeline's
    [vae_scale_factor]; the factors that reach the embedding generator are
    this number and 1.0. *)
Theorem resolution_scale_factor_formula
    ext i w pc args c x t kw w2 evs hd gh gw lf nf :
  trace (snd (generate ext i w)) = trace w ++ [EvPipeline pc args] ->
  get_call pc = CustomCall c ->
  trace (snd (model_fn ext c x t kw w2)) = trace w2 ++ evs ->
  In (EvRotary hd gh gw lf nf) evs ->
  exists q s,
    PyFloat.int_true_div (width i * height i)
      ((sample_size (transformer_cfg pc) * vae_scale_factor pc) ^ 2) = Ok q /\
    PyFloat.math_sqrt q = Ok s /\
    scale_factor c = Ok s /\
    ((lf = s /\ nf = PyFloat.one) \/ (lf = PyFloat.one /\ nf = s)).
Proof.
  intros Hgen Hcall Htr Hin.
  destruct (generate_pipeline_event ext i w pc args Hgen)
    as (p & w1 & dev & _ & _ & _ & -> & _ & _ & _).
  rewrite patched_get_call in Hcall. injection Hcall as <-.
  destruct (model_fn_rotary_event ext _ x t kw w2 evs _ _ _ _ _ Htr Hin)
    as (s & ct & Hs & _ & _ & _ & -> & ->).
  pose proof Hs as Hs'. rewrite scale_factor_eq in Hs'.
  unfold custom_call_of, closure_of, default_image_size_of in Hs'.
  cbn [cl_width cl_height cl_default_image_size] in Hs'.
  change (transformer_cfg (patched i p)) with (transformer_cfg p).
  change (vae_scale_factor (patched i p)) with (vae_scale_factor p).
  destruct (PyFloat.int_true_div _ _) as [q|e]; [|discriminate].
  exists q, s. repeat split; auto.
  unfold linear_factor_of, ntk_factor_of. destruct (PyFloat.ltb ct _); auto.
Qed.

Lemma resolution_scale_factor_formula_witness :
  let i := Demo.request 16 16 7 Demo.half in
  let c := Demo.closure_at 16 16 Demo.half in
  let pc := patched i Demo.lumina in
  exists q s,
    PyFloat.int_true_div (width i * height i)
      ((sample_size (transformer_cfg pc) * vae_scale_factor pc) ^ 2) = Ok q /\
    PyFloat.math_sqrt q = Ok s /\
    scale_factor c = Ok s /\
    ((PyFloat.one = s /\ Demo.sixty_fourth = PyFloat.one) \/
     (PyFloat.one = PyFloat.one /\ Demo.sixty_fourth = s)).
Proof.
  intros i c pc.
  refine (resolution_scale_factor_formula Demo.ext i Demo.loaded pc
            (pipe_args_of i (mkGenerator "cpu" 7)) c VNone (Demo.at_time Demo.half) ∅
            Demo.loaded
            (trace (snd (model_fn Demo.ext c VNone (Demo.at_time Demo.half) ∅
                           Demo.loaded)))
            72 2 2 PyFloat.one Demo.sixty_fourth _ _ _ _).
  - vm_compute. reflexivity.
  - reflexivity.
  - reflexivity.
  - vm_compute. left. reflexivity.
Defined.

(** ** The embedding is computed anew in every evaluation *)

(** C4. A run of vector-field evaluations calls the embedding generator
    once in every evaluation, with the factors of that evaluation's time,
    immediately before the transformer, and hands the transformer the
    embedding that this very call returned. *)
Theorem rotary_embedding_recomputed_each_evaluation ext c l w vs w' :
  evaluations ext c l w = (Ok vs, w') ->
  exists calls : list (event * event),
    trace w' = trace w ++ flat_map (fun ab => [fst ab; snd ab]) calls /\
    Forall2
      (fun (a : value * tensor * gmap string value) (ab : event * event) =>
         exists s ct hd emb,
           scale_factor c = Ok s /\ Torch.item (snd (fst a)) = Ok ct /\
           fst ab = EvRotary hd (cl_height c / 8) (cl_width c / 8)
                      (linear_factor_of c s ct) (ntk_factor_of c s ct) /\
           get_2d_rotary_pos_embed_lumina ext hd (cl_height c / 8) (cl_width c / 8)
             (linear_factor_of c s ct) (ntk_factor_of c s ct) = Ok emb /\
           snd ab = EvTransformer (fst (fst a)) (snd (fst a))
                      (<["image_rotary_emb" := emb]> (snd a)))
      l calls.
Proof.
  revert w vs w'. induction l as [|[[x t] kw] l IH]; intros w vs w' H.
  - injection H as <- <-. exists []. simpl. rewrite app_nil_r.
    split; [reflexivity|constructor].
  - simpl in H. unfold bind at 1 in H.
    destruct (model_fn_cases ext c x t kw w)
      as [[e He]|(s & ct & p & hd & Hs & Ht & Hp & Hd)].
    { rewrite He in H. discriminate. }
    rewrite (model_fn_run ext c x t kw w s ct p hd Hs Ht Hp Hd) in H.
    destruct (get_2d_rotary_pos_embed_lumina _ _ _ _ _ _) as [emb|e] eqn:Hemb;
      [|discriminate].
    destruct (transformer_call ext p x t _) as [v|e]; [|discriminate].
    unfold bind at 1 in H.
    destruct (evaluations ext c l _) as [[vs'|e] w''] eqn:Hrest; [|discriminate].
    injection H as <- <-.
    destruct (IH _ _ _ Hrest) as (calls & Htr & Hall).
    exists ((rotary_event c hd s ct,
             EvTransformer x t (<["image_rotary_emb" := emb]> kw)) :: calls).
    split.
    + rewrite Htr. simpl. rewrite <- app_assoc. reflexivity.
    + constructor; [|exact Hall]. exists s, ct, hd, emb. simpl. auto.
Qed.

Lemma rotary_embedding_recomputed_each_evaluation_witness :
  let c := Demo.closure_at 2048 2048 Demo.half in
  let t1 := Demo.at_time Demo.three_quarters in
  let t2 := Demo.at_time Demo.quarter in
  let emb1 := VTensor (mkTensor [2] float64 [PyFloat.one; Demo.two]) in
  let emb2 := VTensor (mkTensor [2] float64 [Demo.two; PyFloat.one]) in
  let w' := mkWorld (Some Demo.lumina) (fun _ => Demo.zero_byte) 0
              [EvRotary 72 256 256 PyFloat.one Demo.two;
               EvTransformer VNone t1 (<["image_rotary_emb" := emb1]> ∅);
               EvRotary 72 256 256 Demo.two PyFloat.one;
               EvTransformer VNone t2 (<["image_rotary_emb" := emb2]> ∅)] in
  evaluations Demo.ext c [(VNone, t1, ∅); (VNone, t2, ∅)] Demo.loaded
  = (Ok [VNone; VNone], w') /\
  exists calls : list (event * event),
    trace w' = trace Demo.loaded ++ flat_map (fun ab => [fst ab; snd ab]) calls /\
    length calls = 2%nat.
Proof.
  intros c t1 t2 emb1 emb2 w'.
  assert (H : evaluations Demo.ext c [(VNone, t1, ∅); (VNone, t2, ∅)] Demo.loaded
              = (Ok [VNone; VNone], w')) by (vm_compute; reflexivity).
  split; [exact H|].
  destruct (rotary_embedding_recomputed_each_evaluation Demo.ext c _ _ _ _ H)
    as (calls & Htr & Hall).
  exists calls. split; [exact Htr|].
  apply Forall2_length in Hall. simpl in Hall. congruence.
Defined.

(** ** How the sampler is wired *)




(** ** The time shift *)

(** X20.  What lines 91-92 and 113 do with [t_shift]: the pipeline is
    called with [scheduler.config.shift] set to the integer [1 + t_shift],
    and the integrator held by the installed closure is built from
    [num_inference_steps], [solver] and [t_shift] itself; for a positive
    [t_shift] the stored factor is not 1.  The transform that warps a
    schedule by this factor is not part of the file. *)
Theorem time_shift_factor_is_one_plus_t_shift ext i w pc args :
  trace (snd (generate ext i w)) = trace w ++ [EvPipeline pc args] ->
  sched_shift (pipe_scheduler pc) = VInt (1 + t_shift i) /\
  (exists c, get_call pc = CustomCall c /\
             cl_ode c = mkODE (num_inference_steps i) (solver i) (t_shift i)) /\
  (0 < t_shift i -> sched_shift (pipe_scheduler pc) <> VInt 1).
Proof.
  intros Hgen.
  destruct (generate_pipeline_event ext i w pc args Hgen)
    as (p & w1 & dev & _ & _ & _ & -> & _ & _ & _).
  split; [reflexivity|]. split.
  - exists (custom_call_of i p). split; reflexivity.
  - intros Hpos. simpl. intros [= H]. lia.
Qed.

Lemma time_shift_factor_is_one_plus_t_shift_witness :
  let i := Demo.request 16 16 7 Demo.half in
  let pc := patched i Demo.lumina in
  sched_shift (pipe_scheduler pc) = VInt (1 + 4) /\
  (exists c, get_call pc = CustomCall c /\ cl_ode c = mkODE 30 "midpoint" 4) /\
  (0 < 4 -> sched_shift (pipe_scheduler pc) <> VInt 1).
Proof.
  intros i pc.
  apply (time_shift_factor_is_one_plus_t_shift Demo.ext i Demo.loaded pc
           (pipe_args_of i (mkGenerator "cpu" 7))).
  vm_compute. reflexivity.
Defined.

(** ** Errors *)

(** An interrupt from the keyboard during the pipeline call is not an
    [Exception]: [generate] lets it through and returns no placeholder. *)
Lemma keyboard_interrupt_propagates :
  fst (generate (Demo.installation Demo.interrupted)
         (Demo.request 16 16 7 Demo.half) Demo.loaded)
  = Raise (mkExn KeyboardInterrupt "interrupted").
Proof. vm_compute. reflexivity. Qed.

(** C7 (amended). Nothing between [ode.sample] and [generate] catches
    an error: [custom_call] is the bare call of [ode.sample], and
    [model_fn] raises what the embedding generator or the transformer
    raises.  At the boundary, when the body of [generate] raises an
    instance of [Exception] and [torch.zeros] can build the pair
    ([batch_size], [height] and [width] are not negative, sixteen bytes
    for each pixel, a size 0 counted as 1, fit [int64_t], and the
    allocator serves the two requests), [generate] returns the zero-filled
    float32 pair of shapes (batch_size, height, width, 3) and
    (batch_size, 4, height // 8, width // 8); an exception that is not an
    [Exception] propagates. *)
Theorem exceptions_end_in_placeholder ext i w e w' :
  0 <= batch_size i -> 0 <= height i -> 0 <= width i ->
  16 * (Z.max (batch_size i) 1 * Z.max (height i) 1 * Z.max (width i) 1)
    <= Torch.int64_max ->
  Torch.alloc_cpu (allocate ext) (12 * (batch_size i * height i * width i)) = true ->
  Torch.alloc_cpu (allocate ext)
    (16 * (batch_size i * (height i / 8) * (width i / 8))) = true ->
  generate_body ext i w = (Raise e, w') ->
  (is_Exception e = true ->
     exists img lat,
       generate ext i w = (Ok (img, {["samples" := lat]}), w') /\
       shape img = [batch_size i; height i; width i; 3] /\
       shape lat = [batch_size i; 4; height i / 8; width i / 8] /\
       t_dtype img = float32 /\ t_dtype lat = float32 /\
       Forall (eq (S754_zero false)) (data img) /\
       Forall (eq (S754_zero false)) (data lat)) /\
  (is_Exception e = false -> generate ext i w = (Raise e, w')) /\
  (forall c kw w0,
     custom_call ext c kw w0 = ODE_sample ext (cl_ode c) (model_fn ext c) kw w0) /\
  (forall c x t kw w0 s ct p hd e0,
     scale_factor c = Ok s -> Torch.item t = Ok ct -> node_pipe w0 = Some p ->
     int_floor_div (hidden_size (transformer_cfg p))
                   (num_attention_heads (transformer_cfg p)) = Ok hd ->
     let rotary := get_2d_rotary_pos_embed_lumina ext hd (cl_height c / 8)
                     (cl_width c / 8) (linear_factor_of c s ct) (ntk_factor_of c s ct) in
     (rotary = Raise e0 -> fst (model_fn ext c x t kw w0) = Raise e0) /\
     (forall emb, rotary = Ok emb ->
        transformer_call ext p x t (<["image_rotary_emb" := emb]> kw) = Raise e0 ->
        fst (model_fn ext c x t kw w0) = Raise e0)).
Proof.
  intros Hb Hh Hw Hfit Ha1 Ha2 Hbody. split; [|split; [|split]].
  - intros He.
    destruct (placeholder_ok ext i Hb Hh Hw Hfit Ha1 Ha2) as (img & lat & Hp & Hrest).
    exists img, lat. split; [|exact Hrest].
    unfold generate, try_except. now rewrite Hbody, He, Hp.
  - intros He. unfold generate, try_except. now rewrite Hbody, He.
  - reflexivity.
  - intros c x t kw w0 s ct p hd e0 Hs Ht Hp Hd rotary. subst rotary.
    rewrite (model_fn_run ext c x t kw w0 s ct p hd Hs Ht Hp Hd).
    split.
    + now intros ->.
    + intros emb -> Htr. simpl. exact Htr.
Qed.

Lemma exceptions_end_in_placeholder_witness :
  let ext := Demo.installation Demo.out_of_memory in
  let i := Demo.request 16 16 7 Demo.half in
  let e := mkExn RuntimeError "CUDA out of memory" in
  let w' := snd (generate_body ext i Demo.loaded) in
  generate_body ext i Demo.loaded = (Raise e, w') /\
  exists img lat,
    generate ext i Demo.loaded = (Ok (img, {["samples" := lat]}), w') /\
    shape img = [1; 16; 16; 3] /\ shape lat = [1; 4; 2; 2].
Proof.
  intros ext i e w'.
  assert (H : generate_body ext i Demo.loaded = (Raise e, w')) by (vm_compute; reflexivity).
  split; [exact H|].
  destruct (exceptions_end_in_placeholder ext i Demo.loaded e w') as [Hp _].
  - vm_compute. discriminate.
  - vm_compute. discriminate.
  - vm_compute. discriminate.
  - vm_compute. discriminate.
  - reflexivity.
  - reflexivity.
  - exact H.
  - destruct (Hp eq_refl) as (img & lat & Hg & Hs1 & Hs2 & _).
    exists img, lat. auto.
Defined.

(** What [torch.zeros] refuses: a size outside [int64_t], a byte count
    that overflows, and strides that overflow although the tensor has no
    element. *)
Example zeros_beyond_int64 :
  Torch.zeros (fun _ => true) [1; 16; 2 ^ 200; 3] float32
  = Raise (mkExn (OtherException "TypeError") "Overflow when unpacking long").
Proof. vm_compute. reflexivity. Qed.

Example zeros_storage_overflow :
  Torch.zeros (fun _ => true) [1; 16; 2 ^ 62; 3] float32
  = Raise (mkExn RuntimeError "Storage size calculation overflowed").
Proof. vm_compute. reflexivity. Qed.

Example zeros_stride_overflow :
  Torch.zeros (fun _ => true) [0; 16; 2 ^ 62; 3] float32
  = Raise (mkExn RuntimeError "Stride calculation overflowed").
Proof. vm_compute. reflexivity. Qed.

(** At such a size the [except] block fails in its turn, and the error
    of [torch.zeros] leaves [generate]. *)
Example placeholder_fails_at_large_sizes :
  fst (generate (Demo.installation Demo.out_of_memory)
         (Demo.request (2 ^ 62) 16 7 Demo.half) Demo.loaded)
  = Raise (mkExn RuntimeError "Storage size calculation overflowed").
Proof. vm_compute. reflexivity. Qed.

(** A [GeneratorExit] thrown into the pipeline call is no [Exception]
    either. *)
Example generator_exit_propagates :
  fst (generate (Demo.installation (fun _ _ => Raise (mkExn GeneratorExit "closed")))
         (Demo.request 16 16 7 Demo.half) Demo.loaded)
  = Raise (mkExn GeneratorExit "closed").
Proof. vm_compute. reflexivity. Qed.

(** ** The outputs *)

(** C8. After a successful run the record holds under ["samples"] the
    float32 copy of [output.images], in the shape (b, c, h, w) in which
    the pipeline returned it, and the IMAGE output is the same tensor read
    as (b, h, w, c).  So when the IMAGE output has the pixel shape
    (batch_size, height, width, c) with a positive height, ["samples"] has
    the shape (batch_size, c, height, width) and not a latent shape
    (batch_size, c', height // 8, width // 8). *)
Theorem samples_keep_the_shape_of_images ext i w img lat w' :
  generate_body ext i w = (Ok (img, lat), w') ->
  exists b c h wd smp,
    lat = {["samples" := smp]} /\
    shape smp = [b; c; h; wd] /\ shape img = [b; h; wd; c] /\
    (b = batch_size i -> h = height i -> wd = width i -> 0 < height i ->
     forall c', shape smp <> [batch_size i; c'; height i / 8; width i / 8]).
Proof.
  intros Hbody.
  assert (Hpost : exists out w0, postprocess i out w0 = (Ok (img, lat), w')).
  { destruct (generate_body_any ext i w) as [w1 [[e He]|(p & Hp & Heq)]].
    { rewrite He in Hbody. discriminate. }
    rewrite Heq, (generate_body_loaded ext i w1 p Hp) in Hbody.
    destruct (get_torch_device ext) as [dev|e]; [|discriminate].
    cbv zeta in Hbody.
    destruct (manual_seed_error ext dev _); [discriminate|].
    destruct (ODE_init_error ext _ _ _); [discriminate|].
    destruct (pipeline_call ext _ _) as [out|e]; [|discriminate].
    eauto. }
  destruct Hpost as (out & w0 & Hpost).
  destruct (postprocess_ok i out w0 img lat w' Hpost) as (b & c & h & wd & -> & Hs & Hi).
  exists b, c, h, wd, (Torch.to float32 (images out)).
  split; [reflexivity|]. split; [exact Hs|]. split; [exact Hi|].
  intros -> -> -> Hpos c' H. simpl in H. rewrite Hs in H.
  injection H as _ H _.
  assert (height i / 8 < height i) by (apply Z.div_lt; lia). lia.
Qed.

Lemma samples_keep_the_shape_of_images_witness :
  let i := Demo.request 16 16 7 Demo.half in
  let r := generate_body Demo.ext i Demo.loaded in
  exists img lat w',
    r = (Ok (img, lat), w') /\
    exists b c h wd smp,
      lat = {["samples" := smp]} /\
      shape smp = [b; c; h; wd] /\ shape img = [b; h; wd; c] /\
      (b = batch_size i -> h = height i -> wd = width i -> 0 < height i ->
       forall c', shape smp <> [batch_size i; c'; height i / 8; width i / 8]).
Proof.
  intros i r.
  destruct r as [[[img lat]|e] w'] eqn:Hr.
  - exists img, lat, w'. split; [reflexivity|].
    exact (samples_keep_the_shape_of_images Demo.ext i Demo.loaded img lat w' Hr).
  - exfalso. subst r. vm_compute in Hr. discriminate.
Defined.

(** A 16x16 request on a pipeline that returns the decoded batch
    (1, 3, 16, 16): the IMAGE output is (1, 16, 16, 3) and ["samples"] is
    (1, 3, 16, 16), where the [except] branch would give (1, 4, 2, 2). *)
Example samples_are_pixels_16 :
  match fst (generate_body Demo.ext (Demo.request 16 16 7 Demo.half) Demo.loaded) with
  | Ok (img, lat) =>
      shape img = [1; 16; 16; 3] /\
      (shape <$> lat !! "samples") = Some [1; 3; 16; 16]
  | Raise _ => False
  end.
Proof. vm_compute. split; reflexivity. Qed.

(** ** Reproducibility *)

(** With the sentinel [-1] the seed comes from [os.urandom]: the same
    request run twice on one node gives two different results when the
    entropy source moves on. *)
Lemma sentinel_seed_is_not_reproducible :
  let i := Demo.request 16 16 (-1) Demo.half in
  let w := Demo.noisy in
  fst (generate Demo.ext i w) <> fst (generate Demo.ext i (snd (generate Demo.ext i w))).
Proof.
  intros i w H.
  assert (H' : match fst (generate Demo.ext i w) with
               | Ok (img, _) => head (data img) | Raise _ => None end
               = match fst (generate Demo.ext i (snd (generate Demo.ext i w))) with
                 | Ok (img, _) => head (data img) | Raise _ => None end)
    by (now rewrite H).
  vm_compute in H'. discriminate.
Qed.

(** C9 (amended). Two generations with the same arguments on nodes
    whose pipelines are the same model return the same result, bit for
    bit, whenever line 79 seeds the generator with the same seed: for
    every seed other than the sentinel [-1], and for the sentinel when
    [os.urandom] yields the same four bytes.  Nothing else of the state
    (the entropy source, the log of earlier calls, the attributes that
    earlier generations left on the pipeline object) reaches the result. *)
Theorem generation_is_reproducible ext i w1 w2 p1 p2 :
  node_pipe w1 = Some p1 -> node_pipe w2 = Some p2 -> same_model p1 p2 ->
  seed i <> -1 \/ fst (resolve_seed i w1) = fst (resolve_seed i w2) ->
  fst (generate ext i w1) = fst (generate ext i w2).
Proof.
  intros Hp1 Hp2 Hsame Hseed.
  assert (Hs : seed_used i w1 = seed_used i w2).
  { destruct Hseed as [Hne|Heq].
    - unfold seed_used. destruct (seed i =? -1) eqn:E; [|reflexivity].
      apply Z.eqb_eq in E. contradiction.
    - rewrite !resolve_seed_eq in Heq. simpl in Heq. congruence. }
  unfold generate, try_except.
  rewrite (generate_body_loaded ext i w1 p1 Hp1), (generate_body_loaded ext i w2 p2 Hp2).
  rewrite Hs, (patched_same_model i p1 p2 Hsame).
  destruct (placeholder_pure ext i) as [rp Hrp].
  destruct (get_torch_device ext) as [dev|e].
  2:{ destruct (is_Exception e); [|reflexivity]. now rewrite !Hrp. }
  cbv zeta.
  destruct (manual_seed_error ext dev _) as [e|].
  { destruct (is_Exception e); [|reflexivity]. now rewrite !Hrp. }
  destruct (ODE_init_error ext _ _ _) as [e|].
  { destruct (is_Exception e); [|reflexivity]. now rewrite !Hrp. }
  destruct (pipeline_call ext _ _) as [out|e].
  - destruct (postprocess_pure i out) as [r Hr]. rewrite !Hr.
    destruct r as [a|e]; [reflexivity|].
    destruct (is_Exception e); [|reflexivity]. now rewrite !Hrp.
  - destruct (is_Exception e); [|reflexivity]. now rewrite !Hrp.
Qed.

Lemma generation_is_reproducible_witness :
  let i := Demo.request 16 16 7 Demo.half in
  let w2 := snd (generate Demo.ext i Demo.noisy) in
  fst (generate Demo.ext i Demo.noisy) = fst (generate Demo.ext i w2).
Proof.
  intros i w2.
  refine (generation_is_reproducible Demo.ext i Demo.noisy w2 Demo.lumina
            (restored i Demo.lumina) _ _ _ _).
  - reflexivity.
  - vm_compute. reflexivity.
  - repeat split.
  - left. vm_compute. discriminate.
Defined.

(** ** The attribute after a failed pipeline call *)

(** After a failed pipeline call, a later generation whose pipeline call
    raises as well leaves its own closure behind: the attribute is no
    longer the closure of the first failure. *)
Lemma later_failure_replaces_the_stale_closure :
  let ext := Demo.installation Demo.out_of_memory in
  let i := Demo.request 16 16 7 Demo.half in
  let j := Demo.request 32 16 8 Demo.half in
  let w' := snd (generate ext i Demo.loaded) in
  (get_call <$> node_pipe w')
  = Some (CustomCall (Demo.closure_at 16 16 Demo.half)) /\
  (get_call <$> node_pipe (snd (generate ext j w')))
  = Some (CustomCall (Demo.closure_at 32 16 Demo.half)) /\
  (get_call <$> node_pipe (snd (generate ext j w')))
  <> Some (CustomCall (Demo.closure_at 16 16 Demo.half)).
Proof.
  intros ext i j w'.
  assert (H : (get_call <$> node_pipe (snd (generate ext j w')))
              = Some (CustomCall (Demo.closure_at 32 16 Demo.half)))
    by (vm_compute; reflexivity).
  split; [vm_compute; reflexivity|]. split; [exact H|].
  rewrite H. discriminate.
Qed.

(** C10 (amended). When the pipeline call of a generation raises, the
    node is left with [self.pipe.__call__] bound to the [custom_call]
    closure of that generation: no handler puts the saved attribute back.
    It is not this closure for every later generation, though.  Through
    any series of later generations whose pipeline calls do not raise the
    attribute stays this very closure (each of them saves it at line 116
    and puts it back at line 149); and after any series of later
    generations whatever it is the [custom_call] closure of this
    generation or of a later one, never the method of the class. *)
Theorem stale_custom_call_survives ext i w pc args e :
  trace (snd (generate ext i w)) = trace w ++ [EvPipeline pc args] ->
  pipeline_call ext pc args = Raise e ->
  let w' := snd (generate ext i w) in
  let stale := closure_of i (default_image_size_of pc) (ode_of i) in
  (node_pipe w' = Some pc /\ get_call pc = CustomCall stale) /\
  (forall l, none_raises ext l w' ->
     exists p', node_pipe (generations ext l w') = Some p' /\
                get_call p' = CustomCall stale) /\
  (forall l, exists p' j,
     node_pipe (generations ext l w') = Some p' /\ In j (i :: l) /\
     get_call p' = CustomCall (closure_of j (default_image_size_of pc) (ode_of j))).
Proof.
  intros Hgen Hraise w' stale.
  destruct (generate_pipeline_event ext i w pc args Hgen)
    as (p & w1 & dev & Hp1 & Hw & _ & Hpc & Hargs & _ & Hbody).
  assert (Hw' : node_pipe w' = Some pc).
  { subst w'. rewrite generate_world, Hbody, Hraise. reflexivity. }
  assert (Hinst : inst_call pc = Some (CustomCall stale)).
  { subst stale. rewrite Hpc. reflexivity. }
  assert (Hcall : get_call pc = CustomCall stale).
  { unfold get_call. now rewrite Hinst. }
  split; [auto|]. split.
  - intros l Hcalm.
    destruct (generations_keep_call ext (CustomCall stale) l w' pc Hw' Hinst Hcalm)
      as (p' & H1 & H2).
    exists p'. split; [exact H1|]. unfold get_call. now rewrite H2.
  - intros l.
    assert (Hst : stale_call (default_image_size_of pc) [i] w').
    { exists pc, i. repeat split; auto. now left. }
    destruct (generations_keep_stale ext _ l [i] w' Hst) as (p' & j & H1 & _ & H3 & H4).
    exists p', j. repeat split; auto. unfold get_call. now rewrite H4.
Qed.

Lemma stale_custom_call_survives_witness :
  let ext := Demo.installation Demo.out_of_memory in
  let i := Demo.request 16 16 7 Demo.half in
  let pc := patched i Demo.lumina in
  let w' := snd (generate ext i Demo.loaded) in
  get_call Demo.lumina = BoundClassCall /\
  node_pipe w' = Some pc /\
  get_call pc = CustomCall (Demo.closure_at 16 16 Demo.half) /\
  forall l, exists p' j,
    node_pipe (generations ext l w') = Some p' /\ In j (i :: l) /\
    get_call p' = CustomCall (closure_of j 1024 (ode_of j)).
Proof.
  intros ext i pc w'.
  destruct (stale_custom_call_survives ext i Demo.loaded pc
              (pipe_args_of i (mkGenerator "cpu" 7))
              (mkExn RuntimeError "CUDA out of memory"))
    as ((H1 & H2) & _ & H3).
  - vm_compute. reflexivity.
  - reflexivity.
  - split; [reflexivity|]. split; [exact H1|]. split; [exact H2|]. exact H3.
Defined.

(** After the failed call a later generation that succeeds puts the
    stale closure back, not the method of the class. *)
Example later_success_restores_the_stale_closure :
  let i := Demo.request 16 16 7 Demo.half in
  let w' := snd (generate (Demo.installation Demo.out_of_memory) i Demo.loaded) in
  let j := Demo.request 32 16 8 Demo.half in
  (get_call <$> node_pipe (snd (generate Demo.ext j w')))
  = Some (CustomCall (Demo.closure_at 16 16 Demo.half)).
Proof. vm_compute. reflexivity. Qed.

(** * Further properties of the node *)

(** ** Order facts on floats *)

Lemma SFcompare_antisym x y :
  SFcompare y x = option_map CompOpp (SFcompare x y).
Proof.
  destruct x as [sx|sx| |sx mx ex], y as [sy|sy| |sy my ey]; simpl;
    try reflexivity; try (destruct sx; reflexivity); try (destruct sy; reflexivity);
    try (destruct sx, sy; reflexivity).
  destruct sx, sy; simpl; try reflexivity.
  - rewrite (Z.compare_antisym ex ey). destruct (ex ?= ey); simpl; try reflexivity.
    rewrite (Pos.compare_cont_antisym mx my Eq). simpl.
    destruct (Pos.compare_cont Eq mx my); reflexivity.
  - rewrite (Z.compare_antisym ex ey). destruct (ex ?= ey); simpl; try reflexivity.
    rewrite (Pos.compare_cont_antisym mx my Eq). simpl. reflexivity.
Qed.

Lemma SFltb_false_leb x y :
  x <> S754_nan -> y <> S754_nan -> SFltb x y = false -> SFleb y x = true.
Proof.
  intros Hx Hy. unfold SFltb, SFleb. rewrite (SFcompare_antisym x y).
  destruct (SFcompare x y) as [[]|] eqn:E; simpl; try congruence.
  destruct x, y; simpl in E; try congruence; try (destruct s; discriminate);
    try (destruct s, s0; discriminate).
Qed.

(** ** The order of floats by keys *)

Lemma SFcompare_key x y :
  x <> S754_nan -> y <> S754_nan ->
  match SFcompare x y with
  | Some Lt => key_lt (order_key x) (order_key y)
  | Some Eq => order_key x = order_key y
  | Some Gt => key_lt (order_key y) (order_key x)
  | None => False
  end.
Proof.
  intros Hx Hy.
  destruct x as [sx|sx| |sx mx ex], y as [sy|sy| |sy my ey]; try congruence;
    simpl; try (destruct sx); try (destruct sy); simpl; try lia; try reflexivity.
  - destruct (Z.compare_spec ex ey); simpl; try lia.
    rewrite Pos.compare_cont_spec. simpl.
    destruct (Pos.compare_spec mx my); simpl; subst; try lia; reflexivity.
  - destruct (Z.compare_spec ex ey); simpl; try lia.
    rewrite Pos.compare_cont_spec. simpl.
    destruct (Pos.compare_spec mx my); simpl; subst; try lia; reflexivity.
Qed.

Lemma key_lt_irrefl a : ~ key_lt a a.
Proof. destruct a as [[a1 a2] a3]. simpl. lia. Qed.

Lemma key_lt_trans a b c : key_lt a b -> key_lt b c -> key_lt a c.
Proof. destruct a as [[? ?] ?], b as [[? ?] ?], c as [[? ?] ?]. simpl. lia. Qed.

Lemma key_lt_asym a b : key_lt a b -> ~ key_lt b a.
Proof. destruct a as [[? ?] ?], b as [[? ?] ?]. simpl. lia. Qed.

Lemma SFltb_key x y :
  x <> S754_nan -> y <> S754_nan ->
  (SFltb x y = true <-> key_lt (order_key x) (order_key y)).
Proof.
  intros Hx Hy. pose proof (SFcompare_key x y Hx Hy) as H. unfold SFltb.
  destruct (SFcompare x y) as [[]|]; try contradiction.
  - rewrite H. split; [discriminate|]. intros K. now apply key_lt_irrefl in K.
  - split; auto.
  - split; [discriminate|]. intros K. now apply key_lt_asym in K.
Qed.

Lemma SFleb_key x y :
  x <> S754_nan -> y <> S754_nan ->
  (SFleb x y = true <-> ~ key_lt (order_key y) (order_key x)).
Proof.
  intros Hx Hy. pose proof (SFcompare_key x y Hx Hy) as H. unfold SFleb.
  destruct (SFcompare x y) as [[]|]; try contradiction.
  - rewrite H. split; auto. intros _. apply key_lt_irrefl.
  - split; auto. intros _. now apply key_lt_asym.
  - split; [discriminate|]. intros K. contradiction.
Qed.

Lemma SFleb_nan_l x : SFleb S754_nan x = false.
Proof. reflexivity. Qed.

Lemma SFleb_nan_r x : SFleb x S754_nan = false.
Proof. destruct x as [?|?| |[] ? ?]; reflexivity. Qed.

Lemma in_unit_not_nan x : in_unit x = true -> x <> S754_nan.
Proof. intros H ->. discriminate. Qed.

(** ** More on post-processing *)

Lemma clamp_unit t :
  t_dtype t = float32 -> Forall unit_or_nan (data (Torch.clamp 0 1 t)).
Proof.
  intros Hd. unfold Torch.clamp. rewrite Hd. cbv zeta. cbn [data].
  apply Forall_forall. intros y Hy. apply list_elem_of_In, in_map_iff in Hy.
  destruct Hy as (x & <- & _).
  cbv beta.
  destruct (SFltb x (Torch.of_int float32 0)) eqn:E1.
  { right. split; reflexivity. }
  destruct (SFltb (Torch.of_int float32 1) x) eqn:E2.
  { right. split; reflexivity. }
  destruct x as [s|s| |s m e]; try (now left); right; split;
    try (apply SFltb_false_leb; [discriminate|discriminate|assumption]).
Qed.

Lemma permute_elements (P : spec_float -> Prop) t q :
  Torch.permute_0231 t = Ok q -> P S754_nan -> Forall P (data t) ->
  Forall P (data q) /\ t_dtype q = t_dtype t.
Proof.
  unfold Torch.permute_0231.
  destruct (shape t) as [|b [|c [|h [|wd [|? ?]]]]]; try discriminate.
  intros [= <-] Hnan Hall. simpl. split; [|reflexivity].
  apply Forall_forall. intros y Hy.
  repeat (apply list_elem_of_bind in Hy; destruct Hy as (? & Hy & _)).
  apply list_elem_of_singleton in Hy. subst y.
  destruct (data t !! _) as [v|] eqn:E; simpl; [|exact Hnan].
  rewrite Forall_forall in Hall. apply Hall. eapply list_elem_of_lookup_2. exact E.
Qed.

Lemma unmonad_process_output t :
  forall w, process_output t w =
    (match Torch.min t with
     | Raise e => Raise e
     | Ok _ =>
       match Torch.max t with
       | Raise e => Raise e
       | Ok _ =>
         let t32 := Torch.to float32 t in
         match Torch.min t32 with
         | Raise e => Raise e
         | Ok lo =>
           match (if SFleb (Torch.of_int float32 0) lo
                  then match Torch.max t32 with
                       | Ok hi => Ok (SFleb hi (Torch.of_int float32 1))
                       | Raise e => Raise e
                       end
                  else Ok false) with
           | Raise e => Raise e
           | Ok b =>
             match Torch.permute_0231
                     (if b then Torch.clamp 0 1 t32
                      else Torch.clamp 0 1 (Torch.add_div 1 2 t32)) with
             | Raise e => Raise e
             | Ok q =>
               match Torch.min q with
               | Raise e => Raise e
               | Ok _ => match Torch.max q with
                         | Raise e => Raise e
                         | Ok _ => Ok q
                         end
               end
             end
           end
         end
       end
     end, w).
Proof.
  intros w. unfold process_output. unmonad.
  destruct (Torch.min t); [|reflexivity].
  destruct (Torch.max t); [|reflexivity]. cbv zeta.
  destruct (Torch.min (Torch.to float32 t)); [|reflexivity].
  destruct (SFleb _ _).
  - destruct (Torch.max (Torch.to float32 t)); [|reflexivity].
    destruct (Torch.permute_0231 _) as [q|]; [|reflexivity].
    destruct (Torch.min q); [|reflexivity]. destruct (Torch.max q); reflexivity.
  - destruct (Torch.permute_0231 _) as [q|]; [|reflexivity].
    destruct (Torch.min q); [|reflexivity]. destruct (Torch.max q); reflexivity.
Qed.

(** What [clamp(0, 1)] and the permutation leave of a batch. *)
Lemma process_output_range t w img w' :
  process_output t w = (Ok img, w') ->
  t_dtype img = float32 /\ Forall unit_or_nan (data img).
Proof.
  rewrite unmonad_process_output.
  destruct (Torch.min t); [|discriminate].
  destruct (Torch.max t); [|discriminate]. cbv zeta.
  destruct (Torch.min (Torch.to float32 t)); [|discriminate].
  destruct (if SFleb _ _ then _ else _) as [b|]; [|discriminate].
  destruct (Torch.permute_0231 _) as [q|] eqn:Hq; [|discriminate].
  destruct (Torch.min q); [|discriminate]. destruct (Torch.max q); [|discriminate].
  intros [= <- <-].
  assert (Hnan : unit_or_nan S754_nan) by (now left).
  destruct b.
  - destruct (permute_elements unit_or_nan _ _ Hq Hnan) as [H1 H2].
    { apply clamp_unit. reflexivity. }
    split; [rewrite H2; reflexivity | exact H1].
  - destruct (permute_elements unit_or_nan _ _ Hq Hnan) as [H1 H2].
    { apply clamp_unit. reflexivity. }
    split; [rewrite H2; reflexivity | exact H1].
Qed.

(** X1.  The image that [process_output] returns is float32 and each of
    its elements is NaN or a number between 0.0 and 1.0. *)
Theorem process_output_unit_range t w img w' :
  process_output t w = (Ok img, w') ->
  t_dtype img = float32 /\ Forall unit_or_nan (data img).
Proof. exact (process_output_range t w img w'). Qed.

Lemma length_bind_const {A B} (f : A -> list B) (k : nat) (l : list A) :
  (forall x, length (f x) = k) -> length (l ≫= f) = (length l * k)%nat.
Proof.
  intros Hf. induction l as [|a l IH]; [reflexivity|].
  change ((a :: l) ≫= f) with (f a ++ (l ≫= f)).
  rewrite length_app, Hf, IH. reflexivity.
Qed.

Lemma permute_length t b c h wd q :
  shape t = [b; c; h; wd] -> Torch.permute_0231 t = Ok q ->
  length (data q) = (Z.to_nat b * (Z.to_nat h * (Z.to_nat wd * Z.to_nat c)))%nat.
Proof.
  unfold Torch.permute_0231. intros ->. intros [= <-]. simpl.
  rewrite (length_bind_const _ (Z.to_nat h * (Z.to_nat wd * Z.to_nat c))), length_seqZ;
    [reflexivity|].
  intros n. rewrite (length_bind_const _ (Z.to_nat wd * Z.to_nat c)), length_seqZ;
    [reflexivity|].
  intros y. rewrite (length_bind_const _ (Z.to_nat c)), length_seqZ; [reflexivity|].
  intros x. rewrite (length_bind_const _ 1), length_seqZ; [lia|].
  reflexivity.
Qed.

Lemma numel_nonneg s : Forall (fun n => 0 <= n) s -> 0 <= numel s.
Proof.
  induction 1 as [|n s Hn _ IH]; simpl; [lia|]. apply Z.mul_nonneg_nonneg; assumption.
Qed.

Lemma to_nat_numel4 b c h wd :
  0 <= b -> 0 <= c -> 0 <= h -> 0 <= wd ->
  Z.to_nat (numel [b; h; wd; c])
  = (Z.to_nat b * (Z.to_nat h * (Z.to_nat wd * Z.to_nat c)))%nat /\
  numel [b; h; wd; c] = numel [b; c; h; wd].
Proof.
  intros Hb Hc Hh Hw. unfold numel; simpl. split; [|ring].
  rewrite Z.mul_1_r.
  rewrite !Z2Nat.inj_mul; try lia; try (apply Z.mul_nonneg_nonneg; lia).
Qed.

Lemma min_ok t : data t <> [] -> exists x, Torch.min t = Ok x.
Proof. unfold Torch.min. destruct (data t); [congruence|eauto]. Qed.

Lemma max_ok t : data t <> [] -> exists x, Torch.max t = Ok x.
Proof. unfold Torch.max. destruct (data t); [congruence|eauto]. Qed.

Lemma nonempty_length {A} (l : list A) : (0 < length l)%nat -> l <> [].
Proof. destruct l; simpl; [lia|discriminate]. Qed.

(** The two outcomes of [process_output] on a well-formed tensor. *)
Lemma process_output_cases t w :
  well_formed t ->
  match fst (process_output t w) with
  | Ok img =>
      exists b c h wd,
        shape t = [b; c; h; wd] /\ 0 < numel (shape t) /\
        shape img = [b; h; wd; c] /\ well_formed img
  | Raise e =>
      exn_cls e = RuntimeError /\
      (length (shape t) <> 4%nat \/ numel (shape t) = 0)
  end.
Proof.
  intros [Hdims Hlen]. rewrite unmonad_process_output. simpl.
  pose proof (numel_nonneg _ Hdims) as Hnn.
  destruct (data t) as [|x0 l0] eqn:Hdata.
  { unfold Torch.min. rewrite Hdata. simpl. split; [reflexivity|].
    right. simpl in Hlen. lia. }
  assert (Hpos : 0 < numel (shape t)) by (simpl in Hlen; lia).
  assert (Hne : data t <> []) by (rewrite Hdata; discriminate).
  rewrite <- Hdata in Hlen.
  destruct (min_ok t Hne) as [? ->]. destruct (max_ok t Hne) as [? ->].
  assert (Hne32 : data (Torch.to float32 t) <> []).
  { simpl. rewrite Hdata. discriminate. }
  destruct (min_ok _ Hne32) as [lo ->]. destruct (max_ok _ Hne32) as [hi ->].
  set (b0 := if SFleb _ lo then Ok (SFleb hi _) else Ok false).
  assert (Hb0 : exists b, b0 = Ok b) by (subst b0; destruct (SFleb _ lo); eauto).
  destruct Hb0 as [bb ->].
  set (u := if bb then _ else _).
  assert (Hu : shape u = shape t) by (subst u; destruct bb; reflexivity).
  destruct (Torch.permute_0231 u) as [q|e] eqn:Hq.
  - destruct (permute_shape u q Hq) as (b & c & h & wd & Hs & Hsq).
    rewrite Hu in Hs. rewrite Hs in Hdims.
    inversion Hdims as [|? ? Hb H1]; subst. inversion H1 as [|? ? Hc H2]; subst.
    inversion H2 as [|? ? Hh H3]; subst. inversion H3 as [|? ? Hw _]; subst.
    destruct (to_nat_numel4 b c h wd Hb Hc Hh Hw) as [Hprod Hperm].
    assert (Hlq : length (data q) = Z.to_nat (numel (shape q))).
    { rewrite Hsq, Hprod. apply (permute_length u b c h wd); [congruence|exact Hq]. }
    assert (Hneq : data q <> []).
    { apply nonempty_length. rewrite Hlq, Hsq, Hperm, <- Hs. lia. }
    destruct (min_ok q Hneq) as [? ->]. destruct (max_ok q Hneq) as [? ->].
    exists b, c, h, wd. repeat split; auto.
    rewrite Hsq. repeat constructor; assumption.
  - split.
    + revert Hq. unfold Torch.permute_0231.
      destruct (shape u) as [|? [|? [|? [|? [|? ?]]]]]; try discriminate;
        now intros [= <-].
    + left. revert Hq. unfold Torch.permute_0231. rewrite Hu.
      destruct (shape t) as [|? [|? [|? [|? [|? ?]]]]]; try discriminate; simpl; lia.
Qed.

(** X2.  On a well-formed tensor [process_output] returns exactly when
    the tensor has four dimensions and at least one element; the image is
    then the well-formed (b, h, w, c) tensor for the input (b, c, h, w);
    otherwise a [RuntimeError] is raised. *)
Theorem process_output_total t w :
  well_formed t ->
  match fst (process_output t w) with
  | Ok img =>
      exists b c h wd,
        shape t = [b; c; h; wd] /\ 0 < numel (shape t) /\
        shape img = [b; h; wd; c] /\ well_formed img
  | Raise e =>
      exn_cls e = RuntimeError /\
      (length (shape t) <> 4%nat \/ numel (shape t) = 0)
  end.
Proof. exact (process_output_cases t w). Qed.

Lemma SFleb_false_key x y :
  x <> S754_nan -> y <> S754_nan ->
  (SFleb x y = false <-> key_lt (order_key y) (order_key x)).
Proof.
  intros Hx Hy. pose proof (SFcompare_key x y Hx Hy) as H. unfold SFleb.
  destruct (SFcompare x y) as [[]|]; try contradiction.
  - rewrite H. split; [discriminate|]. intros K. now apply key_lt_irrefl in K.
  - split; [discriminate|]. intros K. now apply key_lt_asym in K.
  - split; auto.
Qed.

Lemma SFltb_false_key x y :
  x <> S754_nan -> y <> S754_nan ->
  (SFltb x y = false <-> ~ key_lt (order_key x) (order_key y)).
Proof.
  intros Hx Hy. pose proof (SFltb_key x y Hx Hy) as H.
  destruct (SFltb x y); split; intros; try discriminate; try reflexivity.
  - exfalso. apply H0. now apply H.
  - intros K. apply H in K. discriminate.
Qed.

Lemma is_nan_false x : Torch.is_nan x = false -> x <> S754_nan.
Proof. intros H ->. discriminate. Qed.

Lemma is_nan_true x : Torch.is_nan x = true -> x = S754_nan.
Proof. destruct x; simpl; congruence. Qed.

Lemma pick_min_choice a acc : Torch.pick_min a acc = a \/ Torch.pick_min a acc = acc.
Proof.
  unfold Torch.pick_min.
  destruct (Torch.is_nan acc); auto. destruct (Torch.is_nan a); auto.
  destruct (SFltb a acc); auto.
Qed.

Lemma pick_max_choice a acc : Torch.pick_max a acc = a \/ Torch.pick_max a acc = acc.
Proof.
  unfold Torch.pick_max.
  destruct (Torch.is_nan acc); auto. destruct (Torch.is_nan a); auto.
  destruct (SFltb acc a); auto.
Qed.

Lemma fold_min_elem x l : In (fold_right Torch.pick_min x l) (x :: l).
Proof.
  induction l as [|a l IH]; [now left|].
  cbn [fold_right]. destruct (pick_min_choice a (fold_right Torch.pick_min x l)) as [->| ->].
  - right. now left.
  - destruct IH as [IH|IH]; [left; exact IH|right; right; exact IH].
Qed.

Lemma fold_max_elem x l : In (fold_right Torch.pick_max x l) (x :: l).
Proof.
  induction l as [|a l IH]; [now left|].
  cbn [fold_right]. destruct (pick_max_choice a (fold_right Torch.pick_max x l)) as [->| ->].
  - right. now left.
  - destruct IH as [IH|IH]; [left; exact IH|right; right; exact IH].
Qed.

(** A float below [lo] or NaN stays so under [pick_min]. *)
Lemma pick_min_low lo a acc :
  lo <> S754_nan ->
  SFleb lo a = false \/ SFleb lo acc = false ->
  SFleb lo (Torch.pick_min a acc) = false.
Proof.
  intros Hlo H. unfold Torch.pick_min.
  destruct (Torch.is_nan acc) eqn:Eacc.
  { apply is_nan_true in Eacc. subst. apply SFleb_nan_r. }
  destruct (Torch.is_nan a) eqn:Ea.
  { apply is_nan_true in Ea. subst. apply SFleb_nan_r. }
  apply is_nan_false in Eacc, Ea.
  destruct (SFltb a acc) eqn:E.
  - destruct H as [H|H]; [exact H|].
    apply SFleb_false_key in H; auto. apply SFltb_key in E; auto.
    apply SFleb_false_key; auto. eapply key_lt_trans; eauto.
  - destruct H as [H|H]; [|exact H].
    apply SFleb_false_key in H; auto. apply SFltb_false_key in E; auto.
    apply SFleb_false_key; auto.
    destruct (order_key a) as [[? ?] ?], (order_key acc) as [[? ?] ?],
             (order_key lo) as [[? ?] ?]. simpl in *. lia.
Qed.

(** A float above [hi] or NaN stays so under [pick_max]. *)
Lemma pick_max_high hi a acc :
  hi <> S754_nan ->
  SFleb a hi = false \/ SFleb acc hi = false ->
  SFleb (Torch.pick_max a acc) hi = false.
Proof.
  intros Hhi H. unfold Torch.pick_max.
  destruct (Torch.is_nan acc) eqn:Eacc.
  { apply is_nan_true in Eacc. subst. apply SFleb_nan_l. }
  destruct (Torch.is_nan a) eqn:Ea.
  { apply is_nan_true in Ea. subst. apply SFleb_nan_l. }
  apply is_nan_false in Eacc, Ea.
  destruct (SFltb acc a) eqn:E.
  - destruct H as [H|H]; [exact H|].
    apply SFleb_false_key in H; auto. apply SFltb_key in E; auto.
    apply SFleb_false_key; auto. eapply key_lt_trans; eauto.
  - destruct H as [H|H]; [|exact H].
    apply SFleb_false_key in H; auto. apply SFltb_false_key in E; auto.
    apply SFleb_false_key; auto.
    destruct (order_key a) as [[? ?] ?], (order_key acc) as [[? ?] ?],
             (order_key hi) as [[? ?] ?]. simpl in *. lia.
Qed.

Lemma fold_min_low lo x l :
  lo <> S754_nan -> Exists (fun y => SFleb lo y = false) (x :: l) ->
  SFleb lo (fold_right Torch.pick_min x l) = false.
Proof.
  intros Hlo. induction l as [|a l IH]; intros H.
  - inversion H as [? ? H1|? ? H1]; [exact H1|inversion H1].
  - cbn [fold_right]. apply pick_min_low; [exact Hlo|].
    inversion H as [? ? H1|? ? H1]; subst.
    + right. apply IH. now left.
    + inversion H1 as [? ? H2|? ? H2]; subst; [now left|].
      right. apply IH. now right.
Qed.

Lemma fold_max_high hi x l :
  hi <> S754_nan -> Exists (fun y => SFleb y hi = false) (x :: l) ->
  SFleb (fold_right Torch.pick_max x l) hi = false.
Proof.
  intros Hhi. induction l as [|a l IH]; intros H.
  - inversion H as [? ? H1|? ? H1]; [exact H1|inversion H1].
  - cbn [fold_right]. apply pick_max_high; [exact Hhi|].
    inversion H as [? ? H1|? ? H1]; subst.
    + right. apply IH. now left.
    + inversion H1 as [? ? H2|? ? H2]; subst; [now left|].
      right. apply IH. now right.
Qed.

Lemma forallb_false_witness {A} (f : A -> bool) l :
  forallb f l = false -> exists y, In y l /\ f y = false.
Proof.
  induction l as [|a l IH]; [discriminate|]. simpl.
  destruct (f a) eqn:E; simpl.
  - intros H. destruct (IH H) as (y & ? & ?). eauto.
  - intros _. exists a. auto.
Qed.

(** The test of line 171 on a tensor with elements. *)
Lemma unit_range_test x l :
  (if SFleb (Torch.of_int float32 0) (fold_right Torch.pick_min x l)
   then SFleb (fold_right Torch.pick_max x l) (Torch.of_int float32 1)
   else false)
  = forallb in_unit (x :: l).
Proof.
  destruct (forallb in_unit (x :: l)) eqn:Hall.
  - rewrite forallb_forall in Hall.
    pose proof (Hall _ (fold_min_elem x l)) as H1.
    pose proof (Hall _ (fold_max_elem x l)) as H2.
    unfold in_unit in H1, H2. apply andb_true_iff in H1, H2.
    destruct H1 as [-> _], H2 as [_ ->]. reflexivity.
  - assert (Hex : Exists (fun y => in_unit y = false) (x :: l)).
    { apply Exists_exists. apply forallb_false_witness in Hall.
      destruct Hall as (y & Hy1 & Hy2). exists y. split; [|exact Hy2].
      now apply list_elem_of_In. }
    destruct (SFleb (Torch.of_int float32 0) (fold_right Torch.pick_min x l)) eqn:Emin;
      [|reflexivity].
    apply fold_max_high; [discriminate|].
    apply Exists_exists in Hex. destruct Hex as (y & Hy & Hu).
    apply Exists_exists.
    unfold in_unit in Hu. apply andb_false_iff in Hu. destruct Hu as [Hu|Hu].
    + exfalso.
      assert (SFleb (Torch.of_int float32 0) (fold_right Torch.pick_min x l) = false).
      { apply fold_min_low; [discriminate|]. apply Exists_exists. eauto. }
      congruence.
    + eauto.
Qed.

Lemma clamp_unit_id t :
  t_dtype t = float32 -> forallb in_unit (data t) = true ->
  Torch.clamp 0 1 t = mkTensor (shape t) float32 (data t).
Proof.
  intros Hd Hall. unfold Torch.clamp. rewrite Hd. f_equal.
  rewrite <- (map_id (data t)) at 2. apply map_ext_in.
  intros x Hx. rewrite forallb_forall in Hall. specialize (Hall x Hx).
  pose proof (in_unit_not_nan x Hall) as Hn.
  unfold in_unit in Hall. apply andb_true_iff in Hall. destruct Hall as [H0 H1].
  apply SFleb_key in H0; [|discriminate|exact Hn].
  apply SFleb_key in H1; [|exact Hn|discriminate].
  assert (SFltb x (Torch.of_int float32 0) = false) as ->.
  { apply SFltb_false_key; [exact Hn|discriminate|exact H0]. }
  assert (SFltb (Torch.of_int float32 1) x = false) as ->.
  { apply SFltb_false_key; [discriminate|exact Hn|exact H1]. }
  reflexivity.
Qed.

(** X3.  [process_output] leaves a batch alone whose float32 elements
    all lie between 0.0 and 1.0 (it is only converted and permuted), and
    maps every element through [(x + 1) / 2] and the clamp as soon as one
    element is NaN, negative or above 1.0. *)
Theorem process_output_rescales_iff t w :
  well_formed t -> data t <> [] ->
  let t32 := Torch.to float32 t in
  fst (process_output t w) =
    Torch.permute_0231
      (if forallb in_unit (data t32) then t32
       else Torch.clamp 0 1 (Torch.add_div 1 2 t32)).
Proof.
  intros Hwf Hne t32.
  pose proof (process_output_cases t w Hwf) as Htot.
  rewrite unmonad_process_output in *. cbn [fst] in *.
  destruct (min_ok t Hne) as [m0 E1]. destruct (max_ok t Hne) as [m1 E2].
  rewrite E1, E2 in *. cbv zeta in *. fold t32 in Htot |- *.
  assert (Hne32 : data t32 <> []).
  { subst t32. simpl. destruct (data t); [congruence|discriminate]. }
  destruct (data t32) as [|x0 l] eqn:Hd; [congruence|].
  assert (Emin : Torch.min t32 = Ok (fold_right Torch.pick_min x0 l)).
  { unfold Torch.min. now rewrite Hd. }
  assert (Emax : Torch.max t32 = Ok (fold_right Torch.pick_max x0 l)).
  { unfold Torch.max. now rewrite Hd. }
  rewrite Emin, Emax in *.
  assert (Hb : (if SFleb (Torch.of_int float32 0) (fold_right Torch.pick_min x0 l)
                then Ok (SFleb (fold_right Torch.pick_max x0 l) (Torch.of_int float32 1))
                else Ok false)
               = @Ok bool (forallb in_unit (x0 :: l))).
  { rewrite <- unit_range_test. destruct (SFleb _ (fold_right Torch.pick_min x0 l)); reflexivity. }
  rewrite Hb in *.
  assert (Hclamp : (if forallb in_unit (x0 :: l) then Torch.clamp 0 1 t32
                    else Torch.clamp 0 1 (Torch.add_div 1 2 t32))
                   = (if forallb in_unit (x0 :: l) then t32
                      else Torch.clamp 0 1 (Torch.add_div 1 2 t32))).
  { destruct (forallb in_unit (x0 :: l)) eqn:Hall; [|reflexivity].
    rewrite clamp_unit_id; [|reflexivity|now rewrite Hd].
    subst t32. reflexivity. }
  rewrite Hclamp in *.
  destruct (Torch.permute_0231 _) as [q|e] eqn:Hq; [|reflexivity].
  assert (H4 : length (shape t) = 4%nat).
  { destruct (permute_shape _ _ Hq) as (b & c & h & wd & Hs & _).
    destruct (forallb in_unit (x0 :: l)); subst t32; simpl in Hs; now rewrite Hs. }
  assert (Hnum : numel (shape t) <> 0).
  { intros H. destruct Hwf as [_ Hlen]. rewrite H in Hlen. simpl in Hlen.
    destruct (data t); [congruence|discriminate]. }
  destruct (Torch.min q); [|destruct Htot as [_ [H|H]]; congruence].
  destruct (Torch.max q); [reflexivity|]. destruct Htot as [_ [H|H]]; congruence.
Qed.

(** X4.  [process_latents] does not look at [height] and [width]; it
    raises a [RuntimeError] exactly when the tensor has no element, and
    otherwise returns the record whose only entry, ["samples"], is the
    float32 tensor of the shape and length of its input. *)
Theorem process_latents_outcome t h wd w :
  (forall h' wd', process_latents t h' wd' w = process_latents t h wd w) /\
  match process_latents t h wd w with
  | (Ok m, w') =>
      w' = w /\ data t <> [] /\ dom m = {["samples"]} /\
      exists smp, m !! "samples" = Some smp /\ shape smp = shape t /\
                  t_dtype smp = float32 /\ length (data smp) = length (data t)
  | (Raise e, w') => w' = w /\ data t = [] /\ exn_cls e = RuntimeError
  end.
Proof.
  split; [reflexivity|].
  unfold process_latents. unmonad.
  unfold Torch.min, Torch.max, Torch.to. simpl.
  destruct (data t) as [|x l] eqn:Hd; simpl.
  - auto.
  - split; [reflexivity|]. split; [discriminate|]. split.
    + apply dom_singleton_L.
    + eexists. split; [apply lookup_singleton_eq|]. simpl.
      rewrite length_map. auto.
Qed.

(** ** More on [load_model] *)

Section Loading.

Variable ext : externals.

Lemma load_model_cases path w :
  let r := fst (load_model ext path w) in
  let w1 := snd (load_model ext path w) in
  (forall e, r = Raise e -> is_Exception e = false) /\
  trace w1 = trace w /\ entropy w1 = entropy w /\ entropy_pos w1 = entropy_pos w /\
  match get_torch_device ext with
  | Raise _ => node_pipe w1 = node_pipe w
  | Ok _ =>
      match from_pretrained ext (load_source ext path) (load_dtype ext) with
      | Raise _ => node_pipe w1 = node_pipe w
      | Ok p => node_pipe w1 = Some (loaded_pipe ext path p)
      end
  end.
Proof.
  cbv zeta. unfold load_model, try_except, load_source, load_dtype, loaded_pipe. unmonad.
  destruct (get_torch_device ext) as [dev|e]; simpl.
  2:{ destruct (is_Exception e) eqn:E; simpl; repeat split; auto; congruence. }
  destruct (path_exists ext (local_path ext path)); simpl.
  - destruct (from_pretrained ext _ _) as [p|e]; simpl.
    2:{ destruct (is_Exception e) eqn:E; simpl; repeat split; auto; congruence. }
    destruct (scheduler_from_config ext _) as [s|e]; simpl.
    2:{ destruct (is_Exception e) eqn:E; simpl; repeat split; auto; congruence. }
    destruct (pipe_to ext _ dev) as [e|]; simpl;
      [destruct (is_Exception e) eqn:E|]; simpl; repeat split; auto; congruence.
  - destruct (from_pretrained ext _ _) as [p|e]; simpl.
    2:{ destruct (is_Exception e) eqn:E; simpl; repeat split; auto; congruence. }
    destruct (save_pretrained ext p _) as [e|]; simpl.
    { destruct (is_Exception e) eqn:E; simpl; repeat split; auto; congruence. }
    destruct (scheduler_from_config ext _) as [s|e]; simpl.
    2:{ destruct (is_Exception e) eqn:E; simpl; repeat split; auto; congruence. }
    destruct (pipe_to ext _ dev) as [e|]; simpl;
      [destruct (is_Exception e) eqn:E|]; simpl; repeat split; auto; congruence.
Qed.

(** X5.  [load_model] never raises an [Exception], and on a node without
    a pipeline [self.pipe] is still [None] afterwards exactly when the
    device lookup or [from_pretrained] raised. *)
Theorem load_model_swallows path w :
  node_pipe w = None ->
  (forall e, fst (load_model ext path w) = Raise e -> is_Exception e = false) /\
  (node_pipe (snd (load_model ext path w)) = None <->
   (exists e, get_torch_device ext = Raise e) \/
   (exists e, from_pretrained ext (load_source ext path) (load_dtype ext) = Raise e)).
Proof.
  intros Hnone.
  destruct (load_model_cases path w) as (Hexc & _ & _ & _ & Hpipe).
  split; [exact Hexc|].
  destruct (get_torch_device ext) as [dev|e].
  - destruct (from_pretrained ext _ _) as [p|e].
    + rewrite Hpipe. split; [discriminate|].
      intros [[e H]|[e H]]; discriminate.
    + rewrite Hpipe, Hnone. split; eauto.
  - rewrite Hpipe, Hnone. split; eauto.
Qed.

(** X6.  Once [from_pretrained] has returned, [self.pipe] is set whatever
    fails afterwards: it holds the loaded pipeline, with the scheduler
    replaced only if saving (needed only when the local path does not
    exist) and [from_config] both succeeded.  The pipeline is read from
    the local path when that exists and from the hub otherwise. *)
Theorem load_model_keeps_partial_pipeline path w dev p :
  get_torch_device ext = Ok dev ->
  from_pretrained ext (load_source ext path) (load_dtype ext) = Ok p ->
  node_pipe (snd (load_model ext path w)) = Some (loaded_pipe ext path p) /\
  (path_exists ext (local_path ext path) = true ->
   load_source ext path = local_path ext path /\
   loaded_pipe ext path p = match scheduler_from_config ext (pipe_scheduler p) with
                        | Ok s => set_scheduler s p
                        | Raise _ => p
                        end) /\
  (path_exists ext (local_path ext path) = false ->
   load_source ext path = "Alpha-VLLM/Lumina-Next-SFT-diffusers" /\
   forall e, save_pretrained ext p (local_path ext path) = Some e ->
             loaded_pipe ext path p = p).
Proof.
  intros Hdev Hfrom.
  destruct (load_model_cases path w) as (_ & _ & _ & _ & Hpipe).
  rewrite Hdev, Hfrom in Hpipe. split; [exact Hpipe|].
  unfold load_source, loaded_pipe. split.
  - intros ->. auto.
  - intros ->. split; [reflexivity|]. now intros e ->.
Qed.

End Loading.

(** ** More on [generate] *)

Lemma int_from_bytes_big_bound bs :
  0 <= int_from_bytes_big bs < 256 ^ Z.of_nat (length bs).
Proof.
  unfold int_from_bytes_big.
  assert (H : forall acc, 0 <= acc ->
            0 <= fold_left (fun a b => a * 256 + Z.of_N (Byte.to_N b)) bs acc
            < (acc + 1) * 256 ^ Z.of_nat (length bs)).
  { induction bs as [|b bs IH]; intros acc Hacc.
    - simpl. lia.
    - cbn [fold_left length]. rewrite Nat2Z.inj_succ, Z.pow_succ_r by lia.
      pose proof (Byte.to_N_bounded b) as Hb.
      assert (0 <= Z.of_N (Byte.to_N b) <= 255) by lia.
      specialize (IH (acc * 256 + Z.of_N (Byte.to_N b)) ltac:(lia)).
      split; [lia|]. eapply Z.lt_le_trans; [apply IH|].
      assert (0 < 256 ^ Z.of_nat (length bs)) by (apply Z.pow_pos_nonneg; lia).
      nia. }
  specialize (H 0 ltac:(lia)). lia.
Qed.

Section GenerateMore.

Variable ext : externals.

Lemma generate_keeps_model i w p :
  node_pipe w = Some p ->
  exists p', node_pipe (snd (generate ext i w)) = Some p' /\ same_model p p'.
Proof.
  intros Hp. rewrite generate_world, (generate_body_loaded ext i w p Hp).
  destruct (after_seed_frame i w) as (Hsp & _ & _).
  destruct (get_torch_device ext) as [dev|e].
  2:{ exists p. repeat split; auto. }
  cbv zeta.
  destruct (manual_seed_error ext dev _) as [e|].
  { exists p. simpl. repeat split; congruence. }
  destruct (ODE_init_error ext _ _ _) as [e|].
  { exists (configured i p). repeat split. }
  destruct (pipeline_call ext _ _) as [out|e].
  - destruct (postprocess_pure i out) as [r Hr]. rewrite Hr.
    exists (restored i p). repeat split.
  - exists (patched i p). repeat split.
Qed.

Lemma same_model_trans p1 p2 p3 : same_model p1 p2 -> same_model p2 p3 -> same_model p1 p3.
Proof. intros (?&?&?) (?&?&?). repeat split; congruence. Qed.

(** X7.  A node that has a pipeline keeps it through every series of
    generations, whether they succeed or fail: it is never reloaded or
    dropped, and its transformer configuration, VAE scale factor and
    scheduler class never change. *)
Theorem generations_keep_the_model l : forall w p,
  node_pipe w = Some p ->
  exists p', node_pipe (generations ext l w) = Some p' /\ same_model p p'.
Proof.
  induction l as [|i l IH]; intros w p Hp.
  - exists p. repeat split; auto.
  - destruct (generate_keeps_model i w p Hp) as (p1 & Hp1 & Hs1).
    destruct (IH _ p1 Hp1) as (p' & Hp' & Hs'). simpl.
    exists p'. split; [exact Hp'|]. exact (same_model_trans _ _ _ Hs1 Hs').
Qed.

(** X8.  On a node without a pipeline, when [from_pretrained] raises an
    [Exception] the body of the generation fails with the [ValueError] of
    line 72 and the generation leaves the node as it found it: no
    pipeline, nothing logged, no entropy used, so the next generation
    tries to load again.  It ends in the placeholder pair when
    [torch.zeros] can build it: the sizes are not negative, sixteen bytes
    for each pixel, a size 0 counted as 1, fit [int64_t], and the
    allocator serves the two requests. *)
Theorem failed_load_gives_placeholder i w dev e :
  node_pipe w = None ->
  get_torch_device ext = Ok dev ->
  from_pretrained ext (load_source ext (model_path i)) (load_dtype ext) = Raise e ->
  is_Exception e = true ->
  ensure_pipe ext i w = (Raise (mkExn ValueError "Failed to load the pipeline."), w) /\
  snd (generate ext i w) = w /\
  (0 <= batch_size i -> 0 <= height i -> 0 <= width i ->
   16 * (Z.max (batch_size i) 1 * Z.max (height i) 1 * Z.max (width i) 1)
     <= Torch.int64_max ->
   Torch.alloc_cpu (allocate ext) (12 * (batch_size i * height i * width i)) = true ->
   Torch.alloc_cpu (allocate ext)
     (16 * (batch_size i * (height i / 8) * (width i / 8))) = true ->
   exists img lat,
     generate ext i w = (Ok (img, {["samples" := lat]}), w) /\
     shape img = [batch_size i; height i; width i; 3] /\
     shape lat = [batch_size i; 4; height i / 8; width i / 8]).
Proof.
  intros Hnone Hdev Hfrom He.
  assert (Hload : load_model ext (model_path i) w = (Ok tt, w)).
  { revert Hfrom. unfold load_model, try_except, load_source, load_dtype. unmonad.
    rewrite Hdev. simpl.
    destruct (path_exists ext _); simpl; intros ->; simpl; now rewrite He. }
  assert (Hens : ensure_pipe ext i w
                 = (Raise (mkExn ValueError "Failed to load the pipeline."), w)).
  { unfold ensure_pipe. unfold bind at 1. unfold read_self_pipe at 1.
    rewrite Hnone. unfold bind at 1. rewrite Hload.
    unfold bind, read_self_pipe, raise. now rewrite Hnone. }
  assert (Hbody : generate_body ext i w
                  = (Raise (mkExn ValueError "Failed to load the pipeline."), w)).
  { unfold generate_body. unfold bind at 1. now rewrite Hens. }
  split; [exact Hens|]. split.
  - rewrite generate_world. now rewrite Hbody.
  - intros Hb Hh Hw Hfit Ha1 Ha2.
    destruct (placeholder_ok ext i Hb Hh Hw Hfit Ha1 Ha2)
      as (img & lat & Hp & Hs1 & Hs2 & _).
    exists img, lat. split; [|auto].
    unfold generate, try_except. rewrite Hbody. simpl. now rewrite Hp.
Qed.

Lemma generate_entropy_at_call i w pc args :
  trace (snd (generate ext i w)) = trace w ++ [EvPipeline pc args] ->
  exists dev,
    get_torch_device ext = Ok dev /\
    args = pipe_args_of i (mkGenerator dev (seed_used i w)) /\
    entropy_pos (snd (generate ext i w))
    = if seed i =? -1 then (entropy_pos w + 4)%nat else entropy_pos w.
Proof.
  rewrite generate_world, generate_body_ensure.
  destruct (ensure_pipe_frame ext i w) as (r & w1 & E & He & Hpos & Htr & Hp).
  rewrite E. destruct r as [[]|e].
  2:{ simpl. rewrite Htr. intros H. apply app_self_inv in H. discriminate. }
  destruct (Hp eq_refl) as [p Hp1].
  rewrite (generate_body_loaded ext i w1 p Hp1).
  rewrite (seed_used_frame i w w1 He Hpos).
  destruct (after_seed_frame i w1) as (Hsp & Hst & _).
  assert (Hap : entropy_pos (after_seed i w1)
                = if seed i =? -1 then (entropy_pos w + 4)%nat else entropy_pos w).
  { unfold after_seed. destruct (seed i =? -1); simpl; now rewrite Hpos. }
  destruct (get_torch_device ext) as [dev|e].
  2:{ simpl. rewrite Htr. intros H. apply app_self_inv in H. discriminate. }
  cbv zeta.
  destruct (manual_seed_error ext dev _) as [e|].
  { simpl. rewrite Hst, Htr. intros H. apply app_self_inv in H. discriminate. }
  destruct (ODE_init_error ext _ _ _) as [e|].
  { simpl. rewrite Hst, Htr. intros H. apply app_self_inv in H. discriminate. }
  intros H. exists dev. split; [reflexivity|].
  destruct (pipeline_call ext (patched i p) _) as [out|e].
  - destruct (postprocess_pure i out) as [r Hr]. rewrite Hr in *. simpl in *.
    rewrite Hst, Htr in H. apply app_inv_head in H. split; [now inversion H|exact Hap].
  - simpl in *. rewrite Hst, Htr in H. apply app_inv_head in H.
    split; [now inversion H|exact Hap].
Qed.

(** X9.  The generator handed to the pipeline is seeded with the [seed]
    argument itself unless that is [-1]; for [-1] the seed is a number
    from 0 to 2**32 - 1 made of the next four bytes of [os.urandom], and
    only then is the entropy source read. *)
Theorem pipeline_generator_seed i w pc args :
  trace (snd (generate ext i w)) = trace w ++ [EvPipeline pc args] ->
  exists dev s,
    get_torch_device ext = Ok dev /\
    args !! "generator" = Some (VGenerator (mkGenerator dev s)) /\
    (seed i <> -1 -> s = seed i /\
       entropy_pos (snd (generate ext i w)) = entropy_pos w) /\
    (seed i = -1 ->
       s = int_from_bytes_big (map (entropy w) (seq (entropy_pos w) 4)) /\
       0 <= s < 2 ^ 32 /\
       entropy_pos (snd (generate ext i w)) = (entropy_pos w + 4)%nat).
Proof.
  intros Hgen.
  destruct (generate_entropy_at_call i w pc args Hgen) as (dev & Hdev & -> & Hpos).
  exists dev, (seed_used i w). split; [exact Hdev|]. split; [reflexivity|].
  unfold seed_used in *. split.
  - intros Hne. apply Z.eqb_neq in Hne. rewrite Hne in *. auto.
  - intros Heq. apply Z.eqb_eq in Heq. rewrite Heq in *.
    split; [reflexivity|]. split; [|exact Hpos].
    pose proof (int_from_bytes_big_bound (map (entropy w) (seq (entropy_pos w) 4))) as Hb.
    rewrite length_map, length_seq in Hb. exact Hb.
Qed.

(** X10.  The pipeline is called with exactly twelve keyword arguments;
    [solver], [t_shift], [proportional_attn], [model_path] and [seed] are
    not among them, [output_type] is always ["pt"] and
    [num_images_per_prompt] is the batch size. *)
Theorem pipeline_keyword_arguments i w pc args :
  trace (snd (generate ext i w)) = trace w ++ [EvPipeline pc args] ->
  dom args = list_to_set
    ["prompt"; "negative_prompt"; "height"; "width"; "num_inference_steps";
     "guidance_scale"; "num_images_per_prompt"; "generator"; "output_type";
     "clean_caption"; "max_sequence_length"; "scaling_watershed"] /\
  args !! "output_type" = Some (VStr "pt") /\
  args !! "num_images_per_prompt" = Some (VInt (batch_size i)) /\
  args !! "height" = Some (VInt (height i)) /\
  args !! "width" = Some (VInt (width i)) /\
  args !! "scaling_watershed" = Some (VFloat (scaling_watershed i)) /\
  args !! "solver" = None /\ args !! "t_shift" = None /\
  args !! "proportional_attn" = None /\ args !! "model_path" = None /\
  args !! "seed" = None.
Proof.
  intros Hgen.
  destruct (generate_entropy_at_call i w pc args Hgen) as (dev & _ & -> & _).
  split; [|repeat split; reflexivity].
  unfold pipe_args_of. rewrite dom_list_to_map_L. reflexivity.
Qed.

End GenerateMore.

Section GenerateStill.

Variable ext : externals.

(** X11.  Once the generator has been seeded, the generation leaves
    [scheduler.config.shift] at [1 + t_shift] and [cross_attention_kwargs]
    at the value chosen by [proportional_attn] on the shared pipeline
    object, whether it then succeeds or fails: neither is put back. *)
Theorem configuration_is_not_restored i w p dev :
  node_pipe w = Some p ->
  get_torch_device ext = Ok dev ->
  manual_seed_error ext dev (seed_used i w) = None ->
  exists p',
    node_pipe (snd (generate ext i w)) = Some p' /\
    sched_shift (pipe_scheduler p') = VInt (1 + t_shift i) /\
    cross_attention_kwargs p' =
      (if proportional_attn i
       then Some {["base_sequence_length" :=
                     VInt ((sample_size (transformer_cfg p) * vae_scale_factor p / 16) ^ 2)]}
       else None).
Proof.
  intros Hp Hdev Hseed.
  rewrite generate_world, (generate_body_loaded ext i w p Hp), Hdev. cbv zeta.
  rewrite Hseed.
  destruct (ODE_init_error ext _ _ _) as [e|].
  { exists (configured i p). repeat split. }
  destruct (pipeline_call ext _ _) as [out|e].
  - destruct (postprocess_pure i out) as [r Hr]. rewrite Hr.
    exists (restored i p). repeat split.
  - exists (patched i p). repeat split.
Qed.

(** X12.  A generation never evaluates the vector field itself: what it
    adds to the log of outgoing calls is nothing or the one pipeline call,
    never a call of the embedding generator or of the transformer, so the
    [custom_call] stored at line 143 is not what line 146 runs. *)
Theorem generate_runs_no_vector_field i w :
  exists evs,
    trace (snd (generate ext i w)) = trace w ++ evs /\
    (length evs <= 1)%nat /\
    forall ev, In ev evs -> exists pc args, ev = EvPipeline pc args.
Proof.
  destruct (generate_trace_shape ext i w) as [H|(pc & args & H)].
  - exists []. rewrite app_nil_r. split; [exact H|]. split; [simpl; lia|].
    intros ev [].
  - exists [EvPipeline pc args]. split; [exact H|]. split; [simpl; lia|].
    intros ev [<-|[]]. eauto.
Qed.

(** X13.  After a pipeline call that returns, line 149 does not remove the
    entry that line 143 made in the object's [__dict__]: on an object that
    had none, the entry stays and holds the bound method of the class. *)
Theorem restore_leaves_an_instance_attribute i w p pc args out :
  node_pipe w = Some p -> inst_call p = None ->
  trace (snd (generate ext i w)) = trace w ++ [EvPipeline pc args] ->
  pipeline_call ext pc args = Ok out ->
  exists p',
    node_pipe (snd (generate ext i w)) = Some p' /\
    inst_call p' = Some BoundClassCall /\ inst_call p' <> inst_call p.
Proof.
  intros Hp Hinst Hgen Hout.
  destruct (generate_pipeline_event ext i w pc args Hgen)
    as (p0 & w1 & dev & _ & Hw & _ & -> & -> & _ & Hbody).
  destruct Hw as [Hw|Hw]; [|congruence].
  assert (p0 = p) by congruence. subst p0.
  rewrite generate_world, Hbody, Hout.
  destruct (postprocess_pure i out) as [r Hr]. rewrite Hr. simpl.
  exists (restored i p). split; [reflexivity|].
  unfold restored, get_call. rewrite Hinst. simpl. split; [reflexivity|discriminate].
Qed.

Lemma within_INPUT_TYPES_bounds i :
  within_INPUT_TYPES i = true ->
  1 <= num_inference_steps i <= 200 /\
  512 <= width i <= 2048 /\ 512 <= height i <= 2048 /\
  1 <= batch_size i <= 4 /\
  64 <= max_sequence_length i <= 512 /\
  1 <= t_shift i <= 20 /\
  In (solver i) ["euler"; "midpoint"; "rk4"].
Proof.
  unfold within_INPUT_TYPES. cbn -[SFleb float_literal Z.leb String.eqb].
  cbn [argument String.eqb Ascii.eqb Bool.eqb].
  rewrite !andb_true_iff, !orb_true_iff, !Z.leb_le, !String.eqb_eq.
  intros H. decompose [and] H. clear H.
  repeat split; try lia.
  match goal with H : _ \/ _ |- _ => decompose [or] H end;
    try discriminate; subst; simpl; auto.
Qed.

(** X14.  For arguments within the declared widget ranges a generation
    lets no [Exception] escape but one: the refusal by torch's allocator
    of a placeholder tensor, a request of at most 201326592 bytes.
    Otherwise it returns a pair, or raises something that is not an
    [Exception]. *)
Theorem accepted_inputs_raise_no_exception i w e :
  within_INPUT_TYPES i = true ->
  fst (generate ext i w) = Raise e ->
  is_Exception e = false \/
  (e = mkExn RuntimeError "DefaultCPUAllocator: can't allocate memory" /\
   exists nbytes, 0 < nbytes <= 201326592 /\ allocate ext nbytes = false).
Proof.
  intros Hin. apply within_INPUT_TYPES_bounds in Hin.
  destruct Hin as (_ & Hw & Hh & Hb & _).
  assert (Hh8 : 64 <= height i / 8 <= 256).
  { split; [apply Z.div_le_lower_bound; lia|apply Z.div_le_upper_bound; lia]. }
  assert (Hw8 : 64 <= width i / 8 <= 256).
  { split; [apply Z.div_le_lower_bound; lia|apply Z.div_le_upper_bound; lia]. }
  assert (Hhw : 1 <= height i * width i <= 2048 * 2048) by nia.
  assert (Hhw8 : 1 <= height i / 8 * (width i / 8) <= 256 * 256) by nia.
  unfold generate, try_except.
  destruct (generate_body ext i w) as [[a|e0] w1]; [discriminate|].
  destruct (is_Exception e0) eqn:He.
  2:{ simpl. intros [= <-]. now left. }
  unfold placeholder. unmonad.
  rewrite (zeros_fits (allocate ext) [batch_size i; height i; width i; 3] float32).
  2:{ repeat constructor; lia. }
  2:{ unfold Torch.padded_numel, Torch.int64_max. cbn [fold_right Torch.itemsize].
      rewrite !Z.max_l by lia. nia. }
  rewrite (zeros_fits (allocate ext) [batch_size i; 4; height i / 8; width i / 8] float32).
  2:{ repeat constructor; lia. }
  2:{ unfold Torch.padded_numel, Torch.int64_max. cbn [fold_right Torch.itemsize].
      rewrite !Z.max_l by lia. nia. }
  cbn [numel fold_right Torch.itemsize]. unfold Torch.alloc_cpu.
  destruct (allocate ext (batch_size i * (height i * (width i * (3 * 1))) * 4)) eqn:E1.
  - destruct (allocate ext (batch_size i * (4 * (height i / 8 * (width i / 8 * 1))) * 4))
      eqn:E2.
    + rewrite !orb_true_r. discriminate.
    + rewrite orb_true_r, orb_false_r.
      destruct (_ =? 0) eqn:E0; [apply Z.eqb_eq in E0; nia|].
      intros [= <-]. right. split; [reflexivity|].
      eexists. split; [|exact E2]. nia.
  - rewrite orb_false_r.
    destruct (_ =? 0) eqn:E0; [apply Z.eqb_eq in E0; nia|].
    intros [= <-]. right. split; [reflexivity|].
    eexists. split; [|exact E1]. nia.
Qed.

(** X15.  The [except] branch is not unconditional: when the body raised
    an [Exception] and [batch_size], [height] or [width] is negative,
    building the placeholder raises a [RuntimeError], which leaves
    [generate] (a [TypeError] instead when one of the three is outside
    [int64_t], which is checked before the sign). *)
Theorem placeholder_needs_sizes i w e w' :
  generate_body ext i w = (Raise e, w') -> is_Exception e = true ->
  batch_size i < 0 \/ height i < 0 \/ width i < 0 ->
  generate ext i w
  = (Raise (if Torch.fits_int64 (batch_size i) && Torch.fits_int64 (height i)
               && Torch.fits_int64 (width i)
            then mkExn RuntimeError "Trying to create tensor with negative dimension"
            else mkExn (OtherException "TypeError") "Overflow when unpacking long"),
     w').
Proof.
  intros Hbody He Hneg. unfold generate, try_except. rewrite Hbody, He.
  unfold placeholder. unmonad. unfold Torch.zeros at 1.
  cbn [forallb]. replace (Torch.fits_int64 3) with true by reflexivity.
  rewrite andb_true_r, andb_assoc.
  destruct (Torch.fits_int64 (batch_size i) && Torch.fits_int64 (height i)
            && Torch.fits_int64 (width i)); [|reflexivity].
  cbn [negb].
  assert (((0 <=? batch_size i) && ((0 <=? height i) && ((0 <=? width i) && ((0 <=? 3) && true))))
          = false) as ->; [|reflexivity].
  destruct Hneg as [H|[H|H]].
  - apply Z.leb_gt in H. now rewrite H.
  - apply Z.leb_gt in H. rewrite H. now rewrite andb_false_r.
  - apply Z.leb_gt in H. rewrite H. now rewrite !andb_false_r.
Qed.

End GenerateStill.

(** ** More on [model_fn] *)

Lemma SFdiv_core_self p :
  SFdiv_core_binary PyFloat.prec PyFloat.emax (Zpos p) 0 (Zpos p) 0
  = (2 ^ 53, -53, loc_Exact).
Proof.
  unfold SFdiv_core_binary.
  replace (Z.sub (Z.add (Zdigits2 (Zpos p)) 0) (Z.add (Zdigits2 (Zpos p)) 0)) with 0 by lia.
  change (Z.min (fexp PyFloat.prec PyFloat.emax 0) (Z.sub 0 0)) with (-53).
  change (Z.sub (Z.sub 0 0) (-53)) with 53.
  cbv iota beta.
  rewrite Z.shiftl_mul_pow2 by lia.
  assert (Hq : Z.div_eucl (Zpos p * 2 ^ 53) (Zpos p) = (2 ^ 53, 0)).
  { pose proof (Z.div_mul (2 ^ 53) (Zpos p) ltac:(lia)) as H1.
    pose proof (Z.mod_mul (2 ^ 53) (Zpos p) ltac:(lia)) as H2.
    unfold Z.div, Z.modulo in H1, H2.
    replace (Z.pos p * 2 ^ 53) with (2 ^ 53 * Z.pos p) by ring.
    destruct (Z.div_eucl (2 ^ 53 * Z.pos p) (Z.pos p)) as [q r].
    simpl in H1, H2. subst. reflexivity. }
  rewrite Hq. unfold new_location, new_location_even, new_location_odd.
  destruct (Z.even (Zpos p)); reflexivity.
Qed.

(** X16.  At the native size, where [width * height] equals
    [default_image_size ** 2], the resolution-scale factor is exactly 1.0,
    whatever the size is. *)
Theorem scale_factor_at_native_size c :
  cl_default_image_size c <> 0 ->
  cl_width c * cl_height c = cl_default_image_size c ^ 2 ->
  scale_factor c = Ok PyFloat.one.
Proof.
  intros Hd Heq. rewrite scale_factor_eq, Heq.
  assert (Hpos : 0 < cl_default_image_size c ^ 2) by nia.
  destruct (cl_default_image_size c ^ 2) as [|p|p] eqn:Hn; try lia.
  unfold PyFloat.int_true_div. simpl (Zpos p =? 0).
  cbv iota. unfold PyFloat.exact_int, SFdiv. rewrite SFdiv_core_self.
  vm_compute. reflexivity.
Qed.

(** X17.  When [model_fn] reaches the transformer it passes [x] and [t]
    on unchanged, with the keyword arguments it was given except that
    ["image_rotary_emb"] now holds the embedding just computed (an entry
    of that name supplied by the caller is overwritten); the head
    dimension is [hidden_size // num_attention_heads] of the pipeline the
    node holds at that moment, and [model_fn] returns what the transformer
    returns. *)
Theorem model_fn_transformer_call ext c x t kw w evs x' t' kw' :
  trace (snd (model_fn ext c x t kw w)) = trace w ++ evs ->
  In (EvTransformer x' t' kw') evs ->
  x' = x /\ t' = t /\
  (forall k, k <> "image_rotary_emb" -> kw' !! k = kw !! k) /\
  exists p hd s ct emb,
    node_pipe w = Some p /\
    int_floor_div (hidden_size (transformer_cfg p))
                  (num_attention_heads (transformer_cfg p)) = Ok hd /\
    scale_factor c = Ok s /\ Torch.item t = Ok ct /\
    get_2d_rotary_pos_embed_lumina ext hd (cl_height c / 8) (cl_width c / 8)
      (linear_factor_of c s ct) (ntk_factor_of c s ct) = Ok emb /\
    kw' !! "image_rotary_emb" = Some emb /\
    fst (model_fn ext c x t kw w) = transformer_call ext p x t kw'.
Proof.
  intros Htr Hin.
  destruct (model_fn_cases ext c x t kw w)
    as [[e He]|(s & ct & p & hd & Hs & Ht & Hp & Hd)].
  { rewrite He in Htr. simpl in Htr. apply app_self_inv in Htr. subst evs. destruct Hin. }
  rewrite (model_fn_run ext c x t kw w s ct p hd Hs Ht Hp Hd) in *.
  destruct (get_2d_rotary_pos_embed_lumina _ _ _ _ _ _) as [emb|e] eqn:Hemb;
    simpl in Htr; apply app_inv_head in Htr; subst evs; simpl in Hin.
  - destruct Hin as [H|[H|[]]]; [discriminate|]. injection H as <- <- <-.
    split; [reflexivity|]. split; [reflexivity|]. split.
    + intros k Hk. apply lookup_insert_ne. congruence.
    + exists p, hd, s, ct, emb. repeat split; auto. apply lookup_insert_eq.
  - destruct Hin as [H|[]]. discriminate.
Qed.

(** X18.  [model_fn] fails before any outgoing call, leaving the state
    untouched, with a [ZeroDivisionError] when [default_image_size] is 0 or
    the pipeline has no attention heads, and with a [RuntimeError] when the
    time tensor does not hold exactly one element. *)
Theorem model_fn_fails_before_calling ext c x t kw w :
  (cl_default_image_size c = 0 ->
   model_fn ext c x t kw w = (Raise (mkExn ZeroDivisionError "division by zero"), w)) /\
  (forall s, scale_factor c = Ok s -> length (data t) <> 1%nat ->
   exists e, model_fn ext c x t kw w = (Raise e, w) /\ exn_cls e = RuntimeError) /\
  (forall s ct p, scale_factor c = Ok s -> Torch.item t = Ok ct ->
   node_pipe w = Some p -> num_attention_heads (transformer_cfg p) = 0 ->
   model_fn ext c x t kw w
   = (Raise (mkExn ZeroDivisionError "integer division or modulo by zero"), w)).
Proof.
  split; [|split].
  - intros Hd. unfold model_fn, bind, lift. rewrite scale_factor_eq, Hd.
    reflexivity.
  - intros s Hs Hlen. unfold model_fn, bind, lift. rewrite Hs. unfold Torch.item.
    destruct (data t) as [|a [|b l]]; simpl in *; try lia; eauto.
  - intros s ct p Hs Ht Hp Hh. unfold model_fn. unmonad.
    rewrite Hs, Ht, Hp. unfold int_floor_div. rewrite Hh. reflexivity.
Qed.

(** X19.  A generation whose body succeeds has called the pipeline once
    and returns its [images] twice over: as the IMAGE, float32 with every
    element NaN or between 0.0 and 1.0, and under ["samples"], the only
    entry of the record, as a float32 tensor with as many elements as the
    pipeline returned. *)
Theorem successful_generation_outputs ext i w img lat w' :
  generate_body ext i w = (Ok (img, lat), w') ->
  (exists pc args out,
     trace w' = trace w ++ [EvPipeline pc args] /\
     pipeline_call ext pc args = Ok out /\
     exists smp, lat = {["samples" := smp]} /\ t_dtype smp = float32 /\
                 shape smp = shape (images out) /\
                 length (data smp) = length (data (images out))) /\
  t_dtype img = float32 /\ Forall unit_or_nan (data img).
Proof.
  intros Hbody.
  destruct (ensure_pipe_frame ext i w) as (r & w1 & E & _ & _ & Htr & Hp).
  rewrite generate_body_ensure, E in Hbody. destruct r as [[]|e]; [|discriminate].
  destruct (Hp eq_refl) as [p Hp1].
  rewrite (generate_body_loaded ext i w1 p Hp1) in Hbody.
  destruct (after_seed_frame i w1) as (_ & Hst & _).
  destruct (get_torch_device ext) as [dev|e]; [|discriminate].
  cbv zeta in Hbody.
  destruct (manual_seed_error ext dev _); [discriminate|].
  destruct (ODE_init_error ext _ _ _); [discriminate|].
  destruct (pipeline_call ext _ _) as [out|e] eqn:Hcall; [|discriminate].
  revert Hbody. unfold postprocess, bind, ret.
  destruct (process_output (images out) _) as [[img'|e] w2] eqn:H1; [|discriminate].
  destruct (process_latents (images out) (height i) (width i) w2)
    as [[lat'|e] w3] eqn:H2; [|discriminate].
  intros [= <- <- <-].
  destruct (process_output_pure (images out)) as [r1 Hr1].
  rewrite Hr1 in H1. injection H1 as -> <-.
  destruct (process_latents_pure (images out) (height i) (width i)) as [r2 Hr2].
  pose proof H2 as H2'. rewrite Hr2 in H2'. injection H2' as -> <-.
  split.
  - do 3 eexists. split; [|split; [exact Hcall|]].
    + simpl. rewrite Hst, Htr. reflexivity.
    + apply process_latents_samples in H2. eexists. split; [exact H2|].
      simpl. rewrite length_map. auto.
  - exact (process_output_range (images out) w _ w (Hr1 w)).
Qed.

Lemma successful_generation_outputs_witness :
  let i := Demo.request 16 16 7 Demo.half in
  exists img lat w',
    generate_body Demo.ext i Demo.loaded = (Ok (img, lat), w') /\
    t_dtype img = float32 /\ Forall unit_or_nan (data img).
Proof.
  intros i.
  destruct (generate_body Demo.ext i Demo.loaded) as [[[img lat]|e] w'] eqn:Hr.
  - exists img, lat, w'. split; [reflexivity|].
    exact (proj2 (successful_generation_outputs Demo.ext i Demo.loaded img lat w' Hr)).
  - exfalso. vm_compute in Hr. discriminate.
Defined.

(** ** The extra properties on concrete inputs *)

Lemma process_output_total_witness :
  well_formed Cases.unit_batch /\
  match fst (process_output Cases.unit_batch Demo.loaded) with
  | Ok img =>
      exists b c h wd,
        shape Cases.unit_batch = [b; c; h; wd] /\ 0 < numel (shape Cases.unit_batch) /\
        shape img = [b; h; wd; c] /\ well_formed img
  | Raise e =>
      exn_cls e = RuntimeError /\
      (length (shape Cases.unit_batch) <> 4%nat \/ numel (shape Cases.unit_batch) = 0)
  end.
Proof.
  assert (H : well_formed Cases.unit_batch).
  { split; [repeat constructor; lia|reflexivity]. }
  split; [exact H|]. exact (process_output_total Cases.unit_batch Demo.loaded H).
Defined.

Lemma process_output_unit_range_witness :
  let img := mkTensor [1; 1; 2; 2] float32
               [Demo.f32 0; Cases.half32; Demo.f32 1; Demo.f32 1] in
  process_output Cases.signed_batch Demo.loaded = (Ok img, Demo.loaded) /\
  t_dtype img = float32 /\ Forall unit_or_nan (data img).
Proof.
  intros img.
  assert (H : process_output Cases.signed_batch Demo.loaded = (Ok img, Demo.loaded))
    by (vm_compute; reflexivity).
  split; [exact H|].
  exact (process_output_unit_range Cases.signed_batch Demo.loaded img Demo.loaded H).
Defined.

Lemma process_output_rescales_iff_witness :
  fst (process_output Cases.unit_batch Demo.loaded)
  = Torch.permute_0231 (Torch.to float32 Cases.unit_batch) /\
  fst (process_output Cases.signed_batch Demo.loaded)
  = Torch.permute_0231
      (Torch.clamp 0 1 (Torch.add_div 1 2 (Torch.to float32 Cases.signed_batch))).
Proof.
  split.
  - refine (process_output_rescales_iff Cases.unit_batch Demo.loaded _ _).
    + split; [repeat constructor; lia|reflexivity].
    + discriminate.
  - refine (process_output_rescales_iff Cases.signed_batch Demo.loaded _ _).
    + split; [repeat constructor; lia|reflexivity].
    + discriminate.
Defined.

Lemma load_model_swallows_witness :
  node_pipe Demo.fresh = None /\
  (forall e, fst (load_model Cases.offline "Lumina-Next-SFT-diffusers" Demo.fresh) = Raise e ->
             is_Exception e = false) /\
  (node_pipe (snd (load_model Cases.offline "Lumina-Next-SFT-diffusers" Demo.fresh)) = None <->
   (exists e, get_torch_device Cases.offline = Raise e) \/
   (exists e, from_pretrained Cases.offline
                (load_source Cases.offline "Lumina-Next-SFT-diffusers")
                (load_dtype Cases.offline) = Raise e)).
Proof.
  split; [reflexivity|].
  exact (load_model_swallows Cases.offline "Lumina-Next-SFT-diffusers" Demo.fresh eq_refl).
Defined.

Lemma load_model_keeps_partial_pipeline_witness :
  node_pipe (snd (load_model Cases.no_scheduler "Lumina-Next-SFT-diffusers" Demo.fresh))
  = Some Demo.lumina /\
  fst (load_model Cases.no_scheduler "Lumina-Next-SFT-diffusers" Demo.fresh) = Ok tt.
Proof.
  destruct (load_model_keeps_partial_pipeline Cases.no_scheduler
              "Lumina-Next-SFT-diffusers" Demo.fresh "cpu" Demo.lumina eq_refl eq_refl)
    as (H & _).
  split; [exact H|reflexivity].
Defined.

Lemma generations_keep_the_model_witness :
  let i := Demo.request 16 16 7 Demo.half in
  let j := Demo.request 16 16 (-1) Demo.half in
  exists p',
    node_pipe (generations (Demo.installation Demo.out_of_memory) [i; j] Demo.loaded)
    = Some p' /\
    same_model Demo.lumina p'.
Proof.
  intros i j.
  exact (generations_keep_the_model (Demo.installation Demo.out_of_memory) [i; j]
           Demo.loaded Demo.lumina eq_refl).
Defined.

Lemma failed_load_gives_placeholder_witness :
  let i := Demo.request 16 16 7 Demo.half in
  ensure_pipe Cases.offline i Demo.fresh
  = (Raise (mkExn ValueError "Failed to load the pipeline."), Demo.fresh) /\
  snd (generate Cases.offline i Demo.fresh) = Demo.fresh /\
  exists img lat,
    generate Cases.offline i Demo.fresh = (Ok (img, {["samples" := lat]}), Demo.fresh) /\
    shape img = [1; 16; 16; 3] /\ shape lat = [1; 4; 2; 2].
Proof.
  intros i.
  destruct (failed_load_gives_placeholder Cases.offline i Demo.fresh "cpu"
              (mkExn (OtherException "OSError") "no connection"))
    as (H1 & H2 & H3); try reflexivity.
  split; [exact H1|]. split; [exact H2|].
  apply H3; try reflexivity; vm_compute; discriminate.
Defined.

Lemma pipeline_generator_seed_witness :
  let i := Demo.request 16 16 (-1) Demo.half in
  let w := mkWorld (Some Demo.lumina) (fun _ => Byte.xff) 0 [] in
  exists dev s,
    get_torch_device Demo.ext = Ok dev /\
    pipe_args_of i (mkGenerator "cpu" 4294967295) !! "generator"
    = Some (VGenerator (mkGenerator dev s)) /\
    (seed i <> -1 -> s = seed i /\
       entropy_pos (snd (generate Demo.ext i w)) = entropy_pos w) /\
    (seed i = -1 ->
       s = int_from_bytes_big (map (entropy w) (seq (entropy_pos w) 4)) /\
       0 <= s < 2 ^ 32 /\
       entropy_pos (snd (generate Demo.ext i w)) = (entropy_pos w + 4)%nat).
Proof.
  intros i w.
  refine (pipeline_generator_seed Demo.ext i w (patched i Demo.lumina)
            (pipe_args_of i (mkGenerator "cpu" 4294967295)) _).
  vm_compute. reflexivity.
Defined.

Lemma pipeline_keyword_arguments_witness :
  let i := Demo.request 16 16 7 Demo.half in
  let args := pipe_args_of i (mkGenerator "cpu" 7) in
  size (dom args) = 12%nat /\ args !! "solver" = None /\
  args !! "output_type" = Some (VStr "pt").
Proof.
  intros i args.
  destruct (pipeline_keyword_arguments Demo.ext i Demo.loaded (patched i Demo.lumina) args)
    as (Hdom & Hout & _ & _ & _ & _ & Hsolver & _).
  - vm_compute. reflexivity.
  - split; [|split; [exact Hsolver|exact Hout]].
    rewrite Hdom. vm_compute. reflexivity.
Defined.

Lemma configuration_is_not_restored_witness :
  let ext := Demo.installation Demo.out_of_memory in
  let i := Demo.request 16 16 7 Demo.half in
  exists p',
    node_pipe (snd (generate ext i Demo.loaded)) = Some p' /\
    sched_shift (pipe_scheduler p') = VInt (1 + 4) /\
    cross_attention_kwargs p' = Some {["base_sequence_length" := VInt 4096]}.
Proof.
  intros ext i.
  destruct (configuration_is_not_restored ext i Demo.loaded Demo.lumina "cpu"
              eq_refl eq_refl eq_refl) as (p' & H1 & H2 & H3).
  exists p'. split; [exact H1|]. split; [exact H2|]. exact H3.
Defined.

Lemma restore_leaves_an_instance_attribute_witness :
  let i := Demo.request 16 16 7 Demo.half in
  exists p',
    node_pipe (snd (generate Demo.ext i Demo.loaded)) = Some p' /\
    inst_call p' = Some BoundClassCall /\ inst_call p' <> inst_call Demo.lumina.
Proof.
  intros i.
  refine (restore_leaves_an_instance_attribute Demo.ext i Demo.loaded Demo.lumina
            (patched i Demo.lumina) (pipe_args_of i (mkGenerator "cpu" 7))
            (mkOutput (mkTensor [1; 3; 16; 16] float32
                         (replicate 768 (Demo.f32 1)))) _ _ _ _).
  - reflexivity.
  - reflexivity.
  - vm_compute. reflexivity.
  - vm_compute. reflexivity.
Defined.

Lemma accepted_inputs_raise_no_exception_witness :
  let i := Demo.request 1024 1024 7 Demo.half in
  within_INPUT_TYPES i = true /\
  fst (generate (Demo.installation Demo.interrupted) i Demo.loaded)
  = Raise (mkExn KeyboardInterrupt "interrupted") /\
  is_Exception (mkExn KeyboardInterrupt "interrupted") = false.
Proof.
  intros i.
  assert (H1 : within_INPUT_TYPES i = true) by (vm_compute; reflexivity).
  assert (H2 : fst (generate (Demo.installation Demo.interrupted) i Demo.loaded)
               = Raise (mkExn KeyboardInterrupt "interrupted"))
    by (vm_compute; reflexivity).
  split; [exact H1|]. split; [exact H2|].
  destruct (accepted_inputs_raise_no_exception (Demo.installation Demo.interrupted) i
              Demo.loaded _ H1 H2) as [H|[H _]]; [exact H|discriminate H].
Defined.

Lemma placeholder_needs_sizes_witness :
  let ext := Demo.installation Demo.out_of_memory in
  let i := Demo.request (-16) 16 7 Demo.half in
  fst (generate ext i Demo.loaded)
  = Raise (mkExn RuntimeError "Trying to create tensor with negative dimension").
Proof.
  intros ext i.
  rewrite (placeholder_needs_sizes ext i Demo.loaded
             (mkExn RuntimeError "CUDA out of memory")
             (snd (generate_body ext i Demo.loaded))).
  - reflexivity.
  - vm_compute. reflexivity.
  - reflexivity.
  - right. right. vm_compute. reflexivity.
Defined.

Lemma scale_factor_at_native_size_witness :
  scale_factor (Demo.closure_at 512 2048 Demo.half) = Ok PyFloat.one.
Proof.
  apply scale_factor_at_native_size.
  - vm_compute. discriminate.
  - reflexivity.
Defined.

Lemma model_fn_transformer_call_witness :
  let c := Demo.closure_at 2048 2048 Demo.half in
  let t := Demo.at_time Demo.quarter in
  let kw : gmap string value :=
    <["image_rotary_emb" := VNone]> (<["encoder_mask" := VBool true]> ∅) in
  let emb := VTensor (mkTensor [2] float64 [Demo.two; PyFloat.one]) in
  let kw' := <["image_rotary_emb" := emb]> kw in
  kw' !! "encoder_mask" = Some (VBool true) /\
  kw' !! "image_rotary_emb" = Some emb /\
  fst (model_fn Demo.ext c VNone t kw Demo.loaded) = Ok VNone.
Proof.
  intros c t kw emb kw'.
  destruct (model_fn_transformer_call Demo.ext c VNone t kw Demo.loaded
              (trace (snd (model_fn Demo.ext c VNone t kw Demo.loaded)))
              VNone t kw')
    as (_ & _ & Hk & p & hd & s & ct & emb' & _ & _ & _ & _ & _ & He & Hr).
  - reflexivity.
  - vm_compute. right. left. reflexivity.
  - split; [|split].
    + rewrite (Hk "encoder_mask"); [reflexivity|discriminate].
    + reflexivity.
    + rewrite Hr. reflexivity.
Defined.

Lemma model_fn_fails_before_calling_witness :
  model_fn Demo.ext (mkClosure 1024 1024 0 Demo.half (mkODE 30 "midpoint" 4))
    VNone (Demo.at_time Demo.half) ∅ Demo.loaded
  = (Raise (mkExn ZeroDivisionError "division by zero"), Demo.loaded).
Proof.
  destruct (model_fn_fails_before_calling Demo.ext
              (mkClosure 1024 1024 0 Demo.half (mkODE 30 "midpoint" 4))
              VNone (Demo.at_time Demo.half) ∅ Demo.loaded) as (H & _).
  exact (H eq_refl).
Defined.
